(** * vllm_engine.py: the Ray Serve deployment in front of a vLLM engine

    A shallow embedding of [src/ray-serve/vllm_engine.py]:
    - [parse_vllm_args], the translation of the CLI-style mapping into the
      argument strings handed to the engine's argument parser;
    - the two handlers of [VLLMDeployment], [create_chat_completion] and
      [list_models], first as state-passing functions (one request at a
      time), then cut at their [await]s into tasks that an event loop
      interleaves.

    The engine, its argument parser and the serving classes of vLLM are
    not part of the repository: they appear as Section variables. *)

From Stdlib Require Import List String Ascii ZArith Bool Arith Lia.
From Stdlib Require Import DecimalString DecimalPos DecimalZ.
Import ListNotations.
Open Scope string_scope.
Open Scope list_scope.

Set Implicit Arguments.
Set Warnings "-register-all".

(** ** Python values found in the configuration mapping *)

Module Py.

(** The values a [cli_args] entry holds: [None], a [bool], a [str] or an
    [int] (a deployment descriptor yields all four). *)
Inductive Value : Type :=
| PyNone
| PyBool (b : bool)
| PyStr (s : string)
| PyInt (z : Z).

(** [str(value)]. *)
Definition str (v : Value) : string :=
  match v with
  | PyNone => "None"
  | PyBool true => "True"
  | PyBool false => "False"
  | PyStr s => s
  | PyInt z => NilZero.string_of_int (Z.to_int z)
  end.

(** [value is True]: identity with the singleton [True]. *)
Definition is_True (v : Value) : bool :=
  match v with
  | PyBool true => true
  | _ => false
  end.

(** [value == other] between the values above.  A [bool] is an [int] in
    Python, so [True == 1] and [False == 0]. *)
Definition eq (v w : Value) : bool :=
  match v, w with
  | PyNone, PyNone => true
  | PyBool a, PyBool b => Bool.eqb a b
  | PyStr s, PyStr t => String.eqb s t
  | PyInt x, PyInt y => Z.eqb x y
  | PyBool a, PyInt y => Z.eqb (if a then 1 else 0) y
  | PyInt x, PyBool b => Z.eqb x (if b then 1 else 0)
  | _, _ => false
  end.

(** [value in tuple]: some element is equal to [value]. *)
Definition contains (tuple : list Value) (v : Value) : bool :=
  existsb (eq v) tuple.

End Py.

(** ** parse_vllm_args *)

Module ConfigTranslator.

Import Py.

(** A [dict] iterates in insertion order and holds a key once: an
    association list, with [NoDup] on the keys where a statement needs it. *)
Definition Dict : Type := list (string * Value).

Definition keys (d : Dict) : list string := map fst d.

(** [f"--{key}"]. *)
Definition flag (key : string) : string := ("--" ++ key)%string.

(** The body of the loop for one entry: what is appended to [arg_strings]. *)
Definition emit (key : string) (value : Value) : list string :=
  if is_True value then [flag key]
  else if negb (contains [PyNone; PyStr "None"] value) then [flag key; str value]
  else [flag key].

(** The loop [for key, value in cli_args.items()], on the accumulator
    [arg_strings]. *)
Definition arg_strings (cli_args : Dict) : list string :=
  fold_left (fun acc kv => acc ++ emit (fst kv) (snd kv)) cli_args [].

(** The line [logger.info] writes for one entry. *)
Definition log_line (key : string) (value : Value) : string :=
  ("Processing argument: --" ++ key ++ " with value: " ++ str value)%string.

(** What the program holds around a call: the mapping (a mutable object
    the caller keeps) and the log. *)
Record Store : Type := {
  cli_args : Dict;
  log : list string
}.

Section Parser.

(** The parser [make_arg_parser] builds is vLLM's.  [parse_args] either
    returns a namespace or leaves through argparse's error exit. *)
Variable Namespace : Type.

Inductive ParseResult : Type :=
| Parsed (ns : Namespace)
| ParserExit (status : Z) (message : string).

Variable parse_args : list string -> ParseResult.

(** [parse_vllm_args]: one log line per entry, the argument strings, and
    what the freshly built parser makes of them.  [cli_args] is read, not
    assigned. *)
Definition parse_vllm_args (st : Store) : Store * ParseResult :=
  let st' := {| cli_args := cli_args st;
                log := log st ++ map (fun kv => log_line (fst kv) (snd kv)) (cli_args st) |} in
  (st', parse_args (arg_strings (cli_args st))).

End Parser.

Arguments ParserExit {Namespace} status message.

End ConfigTranslator.

(** ** The deployment and its two handlers *)

Module Serving.

(** JSON documents, as [model_dump()] returns them and [JSONResponse]
    serialises them. *)
Inductive JSON : Type :=
| JNull
| JBool (b : bool)
| JNum (z : Z)
| JStr (s : string)
| JList (items : list JSON)
| JObject (fields : list (string * JSON)).

(** *** Requests and what the serving layer hands back *)

(** Only [stream] is read by the handler; the rest travels to the engine
    untouched. *)
Record ChatCompletionRequest : Type := {
  req_model : string;
  messages : list (string * string);
  stream : bool
}.

(** Modelled from the spec: vLLM's [ErrorResponse] is not in the
    repository; the spec gives the error as a status code and a message,
    and its JSON body as [{code, message}]. *)
Record ErrorResponse : Type := {
  code : Z;
  message : string
}.

Definition error_model_dump (e : ErrorResponse) : JSON :=
  JObject [("code", JNum (code e)); ("message", JStr (message e))].

(** Modelled from the spec: vLLM's [ChatCompletionResponse] is not in the
    repository; the spec gives it as a completion payload, here the JSON
    that [model_dump()] returns. *)
Record ChatCompletionResponse : Type := {
  completion_payload : JSON
}.

Definition completion_model_dump (r : ChatCompletionResponse) : JSON :=
  completion_payload r.

(** What [await self.openai_serving_chat.create_chat_completion(...)]
    evaluates to: an [ErrorResponse], a [ChatCompletionResponse], or an
    async generator of event-stream chunks. *)
Inductive ServingResult : Type :=
| Error (e : ErrorResponse)
| Completion (r : ChatCompletionResponse)
| Generator (chunks : list string).

(** Starlette's responses.  [StreamingResponse] stores the object it is
    given as [content], whatever it is. *)
Inductive Response : Type :=
| JSONResponse (content : JSON) (status_code : Z)
| StreamingResponse (content : ServingResult) (media_type : string).

(** [JSONResponse(content=...)] without [status_code]. *)
Definition default_status_code : Z := 200.

Inductive Outcome : Type :=
| Returned (r : Response)
| AssertionError.

(** Lines 93-101: from the awaited [generator] to the response. *)
Definition respond (request : ChatCompletionRequest) (generator : ServingResult) : Outcome :=
  match generator with
  | Error e => Returned (JSONResponse (error_model_dump e) (code e))
  | _ =>
      if stream request then
        Returned (StreamingResponse generator "text/event-stream")
      else
        match generator with
        | Completion r => Returned (JSONResponse (completion_model_dump r) default_status_code)
        | _ => AssertionError
        end
  end.

(** *** Model paths *)

Record BaseModelPath : Type := {
  name : string;
  model_path : string
}.

Record LoRAModulePath : Type := {
  lora_name : string;
  lora_path : string
}.

Record PromptAdapterPath : Type := {
  adapter_name : string;
  local_path : string
}.

(** Only [model] of the engine arguments is read by the handlers. *)
Record AsyncEngineArgs : Type := {
  model : string
}.

(** The spec's [ModelPath]: a kind, a name and a path. *)
Inductive ModelKind : Type := BaseModel | LoRAModule | PromptAdapter.

Record ModelPath : Type := {
  kind : ModelKind;
  path_name : string;
  path : string
}.

Definition of_optional {A : Type} (l : option (list A)) : list A :=
  match l with
  | Some xs => xs
  | None => []
  end.

Inductive Handler : Type := CreateChatCompletion | ListModels.

Section Engine.

(** The engine and the classes of vLLM built around it. *)
Variable ModelConfig : Type.
Variable RawRequest : Type.
Variable RequestLogger : Type.

(** [OpenAIServingModels(engine, model_config, base_model_paths,
    lora_modules=..., prompt_adapters=...)]. *)
Record OpenAIServingModels : Type := {
  models_model_config : ModelConfig;
  base_model_paths : list BaseModelPath;
  models_lora_modules : option (list LoRAModulePath);
  models_prompt_adapters : option (list PromptAdapterPath)
}.

(** [OpenAIServingChat(engine, model_config, models, response_role,
    request_logger=..., chat_template=..., chat_template_content_format=...)].
    [object_id] stands for the identity of the Python object: the number
    of serving objects the deployment had constructed before this one. *)
Record OpenAIServingChat : Type := {
  object_id : nat;
  chat_model_config : ModelConfig;
  chat_models : OpenAIServingModels;
  chat_response_role : string;
  chat_request_logger : option RequestLogger;
  chat_template_of : option string;
  chat_template_content_format : string
}.

(** [self]: [openai_serving_chat] is the one field a handler assigns. *)
Record VLLMDeployment : Type := {
  openai_serving_chat : option OpenAIServingChat;
  engine_args : AsyncEngineArgs;
  response_role : string;
  lora_modules : option (list LoRAModulePath);
  prompt_adapters : option (list PromptAdapterPath);
  request_logger : option RequestLogger;
  chat_template : option string
}.

(** The calls that reach the engine, in the order they are issued. *)
Inductive EngineCall : Type :=
| GetModelConfig (caller : Handler)
| ChatCompletion (serving_object : nat) (request : ChatCompletionRequest).

(** The replica: [self], the calls its engine has received so far, and
    the number of [OpenAIServingChat] objects constructed so far. *)
Record Replica : Type := {
  self : VLLMDeployment;
  engine_calls : list EngineCall;
  constructed : nat
}.

(** [__init__] (the keyword defaults are [None]). *)
Definition init (engine_args : AsyncEngineArgs) (response_role : string)
    (lora_modules : option (list LoRAModulePath))
    (prompt_adapters : option (list PromptAdapterPath))
    (request_logger : option RequestLogger)
    (chat_template : option string) : Replica :=
  {| self := {| openai_serving_chat := None;
                engine_args := engine_args;
                response_role := response_role;
                lora_modules := lora_modules;
                prompt_adapters := prompt_adapters;
                request_logger := request_logger;
                chat_template := chat_template |};
     engine_calls := [];
     constructed := 0 |}.

(** What [await self.engine.get_model_config()] evaluates to. *)
Variable get_model_config : ModelConfig.

(** What [await serving_chat.create_chat_completion(request, raw_request)]
    evaluates to. *)
Variable serving_chat_create :
  OpenAIServingChat -> ChatCompletionRequest -> RawRequest -> ServingResult.

(** The registry both handlers build (lines 69-79 and 108-118). *)
Definition serving_models (d : VLLMDeployment) (model_config : ModelConfig) : OpenAIServingModels :=
  {| models_model_config := model_config;
     base_model_paths :=
       [ {| name := model (engine_args d); model_path := model (engine_args d) |} ];
     models_lora_modules := lora_modules d;
     models_prompt_adapters := prompt_adapters d |}.

(** Lines 80-88. *)
Definition serving_chat (d : VLLMDeployment) (model_config : ModelConfig)
    (models : OpenAIServingModels) (id : nat) : OpenAIServingChat :=
  {| object_id := id;
     chat_model_config := model_config;
     chat_models := models;
     chat_response_role := response_role d;
     chat_request_logger := request_logger d;
     chat_template_of := chat_template d;
     chat_template_content_format := "auto" |}.

Definition set_openai_serving_chat (d : VLLMDeployment) (f : OpenAIServingChat) : VLLMDeployment :=
  {| openai_serving_chat := Some f;
     engine_args := engine_args d;
     response_role := response_role d;
     lora_modules := lora_modules d;
     prompt_adapters := prompt_adapters d;
     request_logger := request_logger d;
     chat_template := chat_template d |}.

Definition call_engine (c : EngineCall) (w : Replica) : Replica :=
  {| self := self w; engine_calls := engine_calls w ++ [c]; constructed := constructed w |}.

(** Lines 69-88, once the model config has arrived: build the registry and
    the serving object, assign [self.openai_serving_chat]. *)
Definition build_serving_chat (w : Replica) (model_config : ModelConfig) : Replica * OpenAIServingChat :=
  let models := serving_models (self w) model_config in
  let f := serving_chat (self w) model_config models (constructed w) in
  ({| self := set_openai_serving_chat (self w) f;
      engine_calls := engine_calls w;
      constructed := S (constructed w) |}, f).

(** [create_chat_completion], one request handled from start to end.
    The calls to [logger.info] are left out. *)
Definition create_chat_completion (w : Replica) (request : ChatCompletionRequest)
    (raw_request : RawRequest) : Replica * Outcome :=
  let '(w1, f) :=
    match openai_serving_chat (self w) with
    | None =>
        let w0 := call_engine (GetModelConfig CreateChatCompletion) w in
        build_serving_chat w0 get_model_config
    | Some f => (w, f)
    end in
  let w2 := call_engine (ChatCompletion (object_id f) request) w1 in
  let generator := serving_chat_create f request raw_request in
  (w2, respond request generator).

(** The serving object a chat request handled from [w] is served by: the
    one in [self], or the one built on the spot. *)
Definition serving_object (w : Replica) : OpenAIServingChat :=
  match openai_serving_chat (self w) with
  | Some f => f
  | None =>
      snd (build_serving_chat (call_engine (GetModelConfig CreateChatCompletion) w)
             get_model_config)
  end.

(** Modelled from the spec: [show_available_models] belongs to vLLM's
    [OpenAIServingModels], which is not in the repository.  The spec's
    registry lists the base model paths, then the LoRA module paths, then
    the prompt-adapter paths, each in the order it was given. *)
Definition show_available_models (models : OpenAIServingModels) : list ModelPath :=
  map (fun b => {| kind := BaseModel; path_name := name b; path := model_path b |})
      (base_model_paths models)
  ++ map (fun l => {| kind := LoRAModule; path_name := lora_name l; path := lora_path l |})
      (of_optional (models_lora_modules models))
  ++ map (fun a => {| kind := PromptAdapter; path_name := adapter_name a; path := local_path a |})
      (of_optional (models_prompt_adapters models)).

(** Modelled from the spec: the JSON projection of the model list, one
    [{name, path}] object per model path. *)
Definition model_list_dump (l : list ModelPath) : JSON :=
  JList (map (fun m => JObject [("name", JStr (path_name m)); ("path", JStr (path m))]) l).

Definition models_response (models : OpenAIServingModels) : Outcome :=
  Returned (JSONResponse (model_list_dump (show_available_models models)) default_status_code).

(** [list_models], one request handled from start to end. *)
Definition list_models (w : Replica) : Replica * Outcome :=
  let w1 := call_engine (GetModelConfig ListModels) w in
  let model_config := get_model_config in
  let models := serving_models (self w1) model_config in
  (w1, models_response models).

(** *** The handlers as coroutines

    A handler runs without interruption from one [await] to the next and
    may be suspended at each [await]; the event loop then resumes any
    suspended handler.  Whether an [await] does suspend is up to the
    awaited coroutine, which is the engine's: the loop allows it at every
    engine call, the suspension points the specification lists, and a
    schedule that resumes the same task at once stands for an [await]
    that did not suspend.  This loop therefore has every interleaving of
    the program and more; the loop of the engine the deployment creates
    is [AsyncLLM.run_async_llm] below.  A task records where its handler
    stands. *)
Inductive Task : Type :=
| ChatStart (request : ChatCompletionRequest) (raw_request : RawRequest)
| ChatAwaitConfig (request : ChatCompletionRequest) (raw_request : RawRequest)
| ChatAwaitServing (request : ChatCompletionRequest) (raw_request : RawRequest)
    (f : OpenAIServingChat)
| ListStart
| ListAwaitConfig
| ListAwaitShow (models : OpenAIServingModels)
| Finished (h : Handler) (o : Outcome).

(** Run a task up to its next [await] (or to its [return]).
    - [ChatStart]: line 66, then the call of line 67, or of line 90 when the
      serving object is already there;
    - [ChatAwaitConfig]: lines 67-90, from the arrival of the model config
      to the call of line 90;
    - [ChatAwaitServing]: lines 90-101;
    - [ListStart], [ListAwaitConfig], [ListAwaitShow]: lines 107, 107-119
      and 119. *)
Definition resume (w : Replica) (t : Task) : Replica * Task :=
  match t with
  | ChatStart request raw_request =>
      match openai_serving_chat (self w) with
      | None =>
          (call_engine (GetModelConfig CreateChatCompletion) w,
           ChatAwaitConfig request raw_request)
      | Some f =>
          (call_engine (ChatCompletion (object_id f) request) w,
           ChatAwaitServing request raw_request f)
      end
  | ChatAwaitConfig request raw_request =>
      let '(w1, f) := build_serving_chat w get_model_config in
      (call_engine (ChatCompletion (object_id f) request) w1,
       ChatAwaitServing request raw_request f)
  | ChatAwaitServing request raw_request f =>
      (w, Finished CreateChatCompletion (respond request (serving_chat_create f request raw_request)))
  | ListStart =>
      (call_engine (GetModelConfig ListModels) w, ListAwaitConfig)
  | ListAwaitConfig =>
      (w, ListAwaitShow (serving_models (self w) get_model_config))
  | ListAwaitShow models =>
      (w, Finished ListModels (models_response models))
  | Finished _ _ => (w, t)
  end.

Fixpoint set_nth {A : Type} (i : nat) (x : A) (l : list A) : list A :=
  match l, i with
  | [], _ => []
  | _ :: rest, O => x :: rest
  | y :: rest, S j => y :: set_nth j x rest
  end.

(** The event loop resumes task [i]. *)
Definition run_task (i : nat) (cfg : Replica * list Task) : Replica * list Task :=
  match nth_error (snd cfg) i with
  | Some t =>
      let '(w', t') := resume (fst cfg) t in
      (w', set_nth i t' (snd cfg))
  | None => cfg
  end.

(** A schedule: the tasks the event loop resumes, in order. *)
Definition run (schedule : list nat) (cfg : Replica * list Task) : Replica * list Task :=
  fold_left (fun c i => run_task i c) schedule cfg.

(** Requests handled one after the other, each from start to end. *)
Fixpoint serve_in_turn (w : Replica) (requests : list (ChatCompletionRequest * RawRequest))
    : Replica * list Outcome :=
  match requests with
  | [] => (w, [])
  | rq :: rest =>
      let '(w1, o) := create_chat_completion w (fst rq) (snd rq) in
      let '(w2, os) := serve_in_turn w1 rest in
      (w2, o :: os)
  end.

(** The schedule that resumes task 0 until it returns, then task 1, and
    so on: a chat handler is resumed three times. *)
Definition in_turn (first count : nat) : list nat :=
  flat_map (fun i => [i; i; i]) (seq first count).

(** The tasks of chat requests that have not begun yet. *)
Definition chat_tasks (requests : list (ChatCompletionRequest * RawRequest)) : list Task :=
  map (fun rq => ChatStart (fst rq) (snd rq)) requests.

Definition is_finished (t : Task) : bool :=
  match t with
  | Finished _ _ => true
  | _ => false
  end.

Definition handler_of (t : Task) : Handler :=
  match t with
  | ChatStart _ _ | ChatAwaitConfig _ _ | ChatAwaitServing _ _ _ => CreateChatCompletion
  | ListStart | ListAwaitConfig | ListAwaitShow _ => ListModels
  | Finished h _ => h
  end.

(** 1 for a chat handler that is past line 66, 0 otherwise. *)
Definition chat_begun (t : Task) : nat :=
  match t with
  | ChatAwaitConfig _ _ | ChatAwaitServing _ _ _ | Finished CreateChatCompletion _ => 1
  | _ => 0
  end.

Definition chats_begun (ts : list Task) : nat :=
  list_sum (map chat_begun ts).

(** A chat handler suspended at line 67: it has seen no serving object
    and will assign one when it is resumed. *)
Definition awaits_config (t : Task) : bool :=
  match t with
  | ChatAwaitConfig _ _ => true
  | _ => false
  end.

Definition is_build_call (c : EngineCall) : bool :=
  match c with
  | GetModelConfig CreateChatCompletion => true
  | _ => false
  end.

Definition is_metadata_call (c : EngineCall) : bool :=
  match c with
  | GetModelConfig _ => true
  | _ => false
  end.

(** The engine-metadata calls issued to build the serving object. *)
Definition build_calls (w : Replica) : nat :=
  List.length (filter is_build_call (engine_calls w)).

(** All engine-metadata calls. *)
Definition metadata_calls (w : Replica) : nat :=
  List.length (filter is_metadata_call (engine_calls w)).

End Engine.

Arguments init {ModelConfig RequestLogger}.
Arguments ChatStart {ModelConfig RawRequest RequestLogger}.
Arguments ChatAwaitConfig {ModelConfig RawRequest RequestLogger}.
Arguments ChatAwaitServing {ModelConfig RawRequest RequestLogger}.
Arguments ListStart {ModelConfig RawRequest RequestLogger}.
Arguments ListAwaitConfig {ModelConfig RawRequest RequestLogger}.
Arguments ListAwaitShow {ModelConfig RawRequest RequestLogger}.
Arguments Finished {ModelConfig RawRequest RequestLogger}.
Arguments is_finished {ModelConfig RawRequest RequestLogger}.
Arguments handler_of {ModelConfig RawRequest RequestLogger}.
Arguments chat_begun {ModelConfig RawRequest RequestLogger}.
Arguments awaits_config {ModelConfig RawRequest RequestLogger}.
Arguments chat_tasks {ModelConfig RawRequest RequestLogger}.

End Serving.

(** ** Concrete collaborators

    A small parser and a small engine, to run the definitions on inputs. *)

Module Demo.

Import Py ConfigTranslator Serving.

(** The two options the deployment reads back by name. *)
Record Namespace : Type := {
  ns_model : string;
  ns_response_role : string
}.

(** Each option has a default, as an argparse option has unless it is
    declared required. *)
Definition defaults : Namespace :=
  {| ns_model := "facebook/opt-125m"; ns_response_role := "assistant" |}.

(** Reads [--model v] and [--response_role v]; any other argument is an
    unrecognized one, which argparse answers with exit status 2. *)
Fixpoint parse_from (ns : Namespace) (args : list string) : ParseResult Namespace :=
  match args with
  | [] => Parsed ns
  | "--model" :: v :: rest =>
      parse_from {| ns_model := v; ns_response_role := ns_response_role ns |} rest
  | "--response_role" :: v :: rest =>
      parse_from {| ns_model := ns_model ns; ns_response_role := v |} rest
  | a :: _ => ParserExit 2 ("unrecognized arguments: " ++ a)%string
  end.

Definition parse_args (args : list string) : ParseResult Namespace :=
  parse_from defaults args.

Definition store (d : Dict) : Store := {| cli_args := d; log := [] |}.

(** An engine that knows one model, ["demo-7b"]. *)
Definition completion : ChatCompletionResponse :=
  {| completion_payload :=
       JObject [("choices",
                 JList [JObject [("message",
                                  JObject [("role", JStr "assistant");
                                           ("content", JStr "Hello")])]])] |}.

Definition chunks : list string :=
  ["data: Hel"; "data: lo"; "data: [DONE]"].

Definition unknown_model : ErrorResponse :=
  {| code := 404; message := "The model does not exist." |}.

Definition serving_chat_create (f : OpenAIServingChat unit unit)
    (request : ChatCompletionRequest) (raw_request : unit) : ServingResult :=
  if negb (String.eqb (req_model request) "demo-7b") then Error unknown_model
  else if stream request then Generator chunks
  else Completion completion.

Definition request (m : string) (s : bool) : ChatCompletionRequest :=
  {| req_model := m; messages := [("user", "Hi")]; stream := s |}.

Definition lora_A : LoRAModulePath := {| lora_name := "A"; lora_path := "/loras/A" |}.
Definition lora_B : LoRAModulePath := {| lora_name := "B"; lora_path := "/loras/B" |}.

(** A fresh replica serving ["demo-7b"] with two LoRA modules. *)
Definition fresh : Replica unit unit :=
  init {| model := "demo-7b" |} "assistant" (Some [lora_A; lora_B]) None None None.

Definition create (w : Replica unit unit) (r : ChatCompletionRequest) : Replica unit unit * Outcome :=
  create_chat_completion tt serving_chat_create w r tt.

Definition chat_task (r : ChatCompletionRequest) : Task unit unit unit :=
  ChatStart r tt.

Definition loop (schedule : list nat) (cfg : Replica unit unit * list (Task unit unit unit))
    : Replica unit unit * list (Task unit unit unit) :=
  run tt serving_chat_create schedule cfg.

End Demo.

(** ** The two shapes of an entry *)

Module ArgShape.

Import Py ConfigTranslator.

(** The entries that put the flag alone in the list: the first and the
    last branch of the loop. *)
Definition is_bare (v : Value) : bool :=
  is_True v || contains [PyNone; PyStr "None"] v.

(** Two entries the loop cannot tell apart: the same key, both bare or
    both with the same string form. *)
Definition alike (e e' : string * Value) : Prop :=
  fst e = fst e'
  /\ is_bare (snd e) = is_bare (snd e')
  /\ (is_bare (snd e) = false -> str (snd e) = str (snd e')).

(** An entry whose value is passed on and reads like the flag of [key]. *)
Definition spells (key : string) (e : string * Value) : bool :=
  negb (is_bare (snd e)) && String.eqb (str (snd e)) (flag key).

(** An entry stored under [key]. *)
Definition keyed (key : string) (e : string * Value) : bool :=
  String.eqb (fst e) key.

End ArgShape.

(** ** build_app *)

Module App.

Import Py ConfigTranslator Serving.

(** [key in cli_args.keys()]. *)
Definition has_key (key : string) (d : Dict) : bool :=
  existsb (String.eqb key) (keys d).

(** [cli_args.get(key)]: the value stored under [key], [None] without one. *)
Fixpoint get (key : string) (d : Dict) : Value :=
  match d with
  | [] => PyNone
  | (k, v) :: rest => if String.eqb key k then v else get key rest
  end.

(** The mapping [cli_args.pop(key)] leaves behind (a key occurs once). *)
Definition remove_key (key : string) (d : Dict) : Dict :=
  filter (fun kv => negb (String.eqb key (fst kv))) d.

(** [cli_args.pop(key)] for a key that is there: its value and the
    mapping without it. *)
Definition pop (key : string) (d : Dict) : Value * Dict :=
  (get key d, remove_key key d).

(** An [Optional[...]] argument: [None] is the absent one. *)
Definition optional (v : Value) : option Value :=
  match v with
  | PyNone => None
  | _ => Some v
  end.

(** The engine arguments [build_app] touches: the fields the handlers
    read, [tensor_parallel_size] (logged) and [worker_use_ray] (assigned). *)
Record EngineArgs : Type := {
  handler_args : AsyncEngineArgs;
  tensor_parallel_size : Z;
  worker_use_ray : bool
}.

Definition set_worker_use_ray (b : bool) (a : EngineArgs) : EngineArgs :=
  {| handler_args := handler_args a;
     tensor_parallel_size := tensor_parallel_size a;
     worker_use_ray := b |}.

(** [ray_actor_options] of line 169 ([1.0] written [1]). *)
Definition ray_actor_options : JSON :=
  JObject [("num_cpus", JNum 32);
           ("resources", JObject [("worker_node", JNum 1); ("head_node", JNum 0)])].

(** [VLLMDeployment.options(...).bind(...)]: the options and the six
    arguments [__init__] will receive. *)
Record Application : Type := {
  actor_options : JSON;
  bound_engine_args : EngineArgs;
  bound_response_role : string;
  bound_lora_modules : option (list LoRAModulePath);
  bound_prompt_adapters : option (list PromptAdapterPath);
  bound_request_logger : Value;
  bound_chat_template : option string
}.

Inductive BuildResult : Type :=
| Built (app : Application)
| BuildExit (status : Z) (message : string).

Section Parser.

(** vLLM's parser and namespace, with the attributes [build_app] reads,
    and [AsyncEngineArgs.from_cli_args]. *)
Variable Namespace : Type.
Variable parse_args : list string -> ParseResult Namespace.
Variable from_cli_args : Namespace -> EngineArgs.
Variable ns_response_role : Namespace -> string.
Variable ns_lora_modules : Namespace -> option (list LoRAModulePath).
Variable ns_prompt_adapters : Namespace -> option (list PromptAdapterPath).
Variable ns_chat_template : Namespace -> option string.

(** [os.getenv('VLLM_USE_V1', 'not set')]. *)
Definition getenv_or_not_set (VLLM_USE_V1 : option string) : string :=
  match VLLM_USE_V1 with
  | Some s => s
  | None => "not set"
  end.

(** [build_app].  [accelerator] is assigned and not read again.  An exit
    of the parser leaves the function at line 159, after the [pop]. *)
Definition build_app (VLLM_USE_V1 : option string) (st : Store) : Store * BuildResult :=
  let '(accelerator, d) :=
    if has_key "accelerator" (cli_args st) then pop "accelerator" (cli_args st)
    else (PyStr "GPU", cli_args st) in
  let '(st1, parsed) := parse_vllm_args parse_args {| cli_args := d; log := log st |} in
  match parsed with
  | ParserExit status message => (st1, BuildExit status message)
  | Parsed parsed_args =>
      let engine_args := set_worker_use_ray true (from_cli_args parsed_args) in
      let tp := tensor_parallel_size engine_args in
      let deployment :=
        {| actor_options := ray_actor_options;
           bound_engine_args := engine_args;
           bound_response_role := ns_response_role parsed_args;
           bound_lora_modules := ns_lora_modules parsed_args;
           bound_prompt_adapters := ns_prompt_adapters parsed_args;
           bound_request_logger := get "request_logger" (cli_args st1);
           bound_chat_template := ns_chat_template parsed_args |} in
      ({| cli_args := cli_args st1;
          log := log st1
                 ++ [("Tensor parallelism = " ++ str (PyInt tp))%string;
                     ("VLLM_USE_V1: " ++ getenv_or_not_set VLLM_USE_V1)%string;
                     ("VLLM_USE_V1 post bind: " ++ getenv_or_not_set VLLM_USE_V1)%string] |},
       Built deployment)
  end.

End Parser.

(** The replica Ray Serve creates from the application: [__init__] on
    the bound arguments. *)
Definition deploy (ModelConfig : Type) (app : Application) : Replica ModelConfig Value :=
  init (handler_args (bound_engine_args app)) (bound_response_role app)
    (bound_lora_modules app) (bound_prompt_adapters app)
    (optional (bound_request_logger app)) (bound_chat_template app).

End App.

(** ** Counting what the handlers do *)

Module Accounting.

Import Serving.

Section Engine.

Variable ModelConfig : Type.
Variable RawRequest : Type.
Variable RequestLogger : Type.

(** The fields of [self] that [__init__] assigns and the handlers read. *)
Definition config (d : VLLMDeployment ModelConfig RequestLogger) :=
  (engine_args d, response_role d, lora_modules d, prompt_adapters d,
   request_logger d, chat_template d).

Definition is_chat_call (c : EngineCall) : bool :=
  match c with
  | ChatCompletion _ _ => true
  | _ => false
  end.

(** The chat-completion calls the engine has received. *)
Definition chat_calls (w : Replica ModelConfig RequestLogger) : nat :=
  List.length (filter is_chat_call (engine_calls w)).

(** 1 for a chat handler that has issued the call of line 90. *)
Definition chat_called (t : Task ModelConfig RawRequest RequestLogger) : nat :=
  match t with
  | ChatAwaitServing _ _ _ | Finished CreateChatCompletion _ => 1
  | _ => 0
  end.

(** 1 for a chat handler suspended at line 67. *)
Definition build_pending (t : Task ModelConfig RawRequest RequestLogger) : nat :=
  if awaits_config t then 1 else 0.

(** 1 for a [list_models] handler that has issued the call of line 107. *)
Definition list_begun (t : Task ModelConfig RawRequest RequestLogger) : nat :=
  match t with
  | ListAwaitConfig | ListAwaitShow _ | Finished ListModels _ => 1
  | _ => 0
  end.

(** A handler that has not run yet. *)
Definition not_begun (t : Task ModelConfig RawRequest RequestLogger) : bool :=
  match t with
  | ChatStart _ _ | ListStart => true
  | _ => false
  end.

(** [self] holds the serving object constructed last, if any was. *)
Definition holds_latest (w : Replica ModelConfig RequestLogger) : Prop :=
  match openai_serving_chat (self w) with
  | Some f => S (object_id f) = constructed w
  | None => constructed w = 0
  end.

Definition total (weight : Task ModelConfig RawRequest RequestLogger -> nat)
    (ts : list (Task ModelConfig RawRequest RequestLogger)) : nat :=
  list_sum (map weight ts).

Definition is_chat (t : Task ModelConfig RawRequest RequestLogger) : nat :=
  match handler_of t with
  | CreateChatCompletion => 1
  | ListModels => 0
  end.

Definition is_list (t : Task ModelConfig RawRequest RequestLogger) : nat :=
  match handler_of t with
  | CreateChatCompletion => 0
  | ListModels => 1
  end.

End Engine.

Arguments config {ModelConfig RequestLogger}.
Arguments chat_calls {ModelConfig RequestLogger}.
Arguments holds_latest {ModelConfig RequestLogger}.
Arguments chat_called {ModelConfig RawRequest RequestLogger}.
Arguments build_pending {ModelConfig RawRequest RequestLogger}.
Arguments list_begun {ModelConfig RawRequest RequestLogger}.
Arguments not_begun {ModelConfig RawRequest RequestLogger}.
Arguments total {ModelConfig RawRequest RequestLogger}.
Arguments is_chat {ModelConfig RawRequest RequestLogger}.
Arguments is_list {ModelConfig RawRequest RequestLogger}.

End Accounting.

(** ** The loop with the engine of line 55

    [self.engine] is [AsyncLLM.from_engine_args(engine_args)], the engine
    of [vllm.v1].  Its [get_model_config] returns the model config it
    holds and awaits nothing, so [await self.engine.get_model_config()]
    ends without handing control to the event loop: a handler is not
    suspended at line 67 nor at line 107. *)

Module AsyncLLM.

Import Serving.

Section Engine.

Variable ModelConfig : Type.
Variable RawRequest : Type.
Variable RequestLogger : Type.
Variable get_model_config : ModelConfig.
Variable serving_chat_create :
  OpenAIServingChat ModelConfig RequestLogger ->
  ChatCompletionRequest -> RawRequest -> ServingResult.

(** Run a task up to the next [await] that suspends.
    - [ChatStart]: lines 66-90 up to the call of line 90; without serving
      object that is the check, the metadata call, the two constructions
      and the assignment in one step;
    - [ListStart]: lines 107-119 up to the call of line 119;
    - the other tasks as in [resume] ([ChatAwaitConfig] and
      [ListAwaitConfig] are not reached from handlers that begin here). *)
Definition resume_async_llm (w : Replica ModelConfig RequestLogger)
    (t : Task ModelConfig RawRequest RequestLogger)
    : Replica ModelConfig RequestLogger * Task ModelConfig RawRequest RequestLogger :=
  match t with
  | ChatStart request raw_request =>
      match openai_serving_chat (self w) with
      | None =>
          let w0 := call_engine (GetModelConfig CreateChatCompletion) w in
          let '(w1, f) := build_serving_chat w0 get_model_config in
          (call_engine (ChatCompletion (object_id f) request) w1,
           ChatAwaitServing request raw_request f)
      | Some f =>
          (call_engine (ChatCompletion (object_id f) request) w,
           ChatAwaitServing request raw_request f)
      end
  | ListStart =>
      let w0 := call_engine (GetModelConfig ListModels) w in
      (w0, ListAwaitShow (serving_models (self w0) get_model_config))
  | _ => resume get_model_config serving_chat_create w t
  end.

Definition run_task_async_llm (i : nat)
    (cfg : Replica ModelConfig RequestLogger * list (Task ModelConfig RawRequest RequestLogger))
    : Replica ModelConfig RequestLogger * list (Task ModelConfig RawRequest RequestLogger) :=
  match nth_error (snd cfg) i with
  | Some t =>
      let '(w', t') := resume_async_llm (fst cfg) t in
      (w', set_nth i t' (snd cfg))
  | None => cfg
  end.

Definition run_async_llm (schedule : list nat)
    (cfg : Replica ModelConfig RequestLogger * list (Task ModelConfig RawRequest RequestLogger))
    : Replica ModelConfig RequestLogger * list (Task ModelConfig RawRequest RequestLogger) :=
  fold_left (fun c i => run_task_async_llm i c) schedule cfg.

(** A chat call that went to the serving object [id]. *)
Definition chat_call_on (id : nat) (c : EngineCall) : Prop :=
  match c with
  | ChatCompletion i _ => i = id
  | _ => True
  end.

(** A chat handler waiting at line 90 waits for [f]. *)
Definition served_by (f : OpenAIServingChat ModelConfig RequestLogger)
    (t : Task ModelConfig RawRequest RequestLogger) : Prop :=
  match t with
  | ChatAwaitServing _ _ g => g = f
  | _ => True
  end.

(** What the loop keeps: no handler is suspended at line 67, every chat
    call went to object 0, and either nothing was built and no chat
    handler has begun, or one build call built object 0, which is in
    [self] and serves every waiting chat handler. *)
Definition single_build
    (cfg : Replica ModelConfig RequestLogger * list (Task ModelConfig RawRequest RequestLogger))
    : Prop :=
  Forall (fun t => awaits_config t = false) (snd cfg)
  /\ Forall (chat_call_on 0) (engine_calls (fst cfg))
  /\ match openai_serving_chat (self (fst cfg)) with
     | None =>
         build_calls (fst cfg) = 0 /\ constructed (fst cfg) = 0
         /\ chats_begun (snd cfg) = 0
     | Some f =>
         build_calls (fst cfg) = 1 /\ constructed (fst cfg) = 1
         /\ object_id f = 0 /\ Forall (served_by f) (snd cfg)
     end.

End Engine.

Arguments chat_call_on id c : clear implicits.
Arguments served_by {ModelConfig RawRequest RequestLogger}.
Arguments single_build {ModelConfig RawRequest RequestLogger}.

End AsyncLLM.

(** ** A concrete application *)

Module DemoApp.

Import Py ConfigTranslator Serving App.

Definition from_cli_args (ns : Demo.Namespace) : EngineArgs :=
  {| handler_args := {| model := Demo.ns_model ns |};
     tensor_parallel_size := 1;
     worker_use_ray := false |}.

Definition build (d : Dict) : Store * BuildResult :=
  build_app Demo.parse_args from_cli_args Demo.ns_response_role
    (fun _ => None) (fun _ => None) (fun _ => None) None (Demo.store d).

Definition loop_async_llm (schedule : list nat)
    (cfg : Replica unit unit * list (Task unit unit unit))
    : Replica unit unit * list (Task unit unit unit) :=
  AsyncLLM.run_async_llm tt Demo.serving_chat_create schedule cfg.

End DemoApp.

(** * Properties *)

(** ** parse_vllm_args *)

Module ConfigTranslatorFacts.

Import Py ConfigTranslator.

Lemma fold_emit_acc (d : Dict) (acc : list string) :
  fold_left (fun acc kv => acc ++ emit (fst kv) (snd kv)) d acc
  = acc ++ flat_map (fun kv => emit (fst kv) (snd kv)) d.
Proof.
  revert acc.
  induction d as [|[k v] rest IH]; intro acc; simpl.
  - now rewrite app_nil_r.
  - rewrite IH. now rewrite app_assoc.
Qed.

(** The loop builds the concatenation of what each entry emits. *)
Lemma arg_strings_flat_map (d : Dict) :
  arg_strings d = flat_map (fun kv => emit (fst kv) (snd kv)) d.
Proof.
  unfold arg_strings. now rewrite fold_emit_acc.
Qed.

Lemma arg_strings_app (d1 d2 : Dict) :
  arg_strings (d1 ++ d2) = arg_strings d1 ++ arg_strings d2.
Proof.
  rewrite !arg_strings_flat_map. apply flat_map_app.
Qed.

Lemma arg_strings_cons (k : string) (v : Value) (d : Dict) :
  arg_strings ((k, v) :: d) = emit k v ++ arg_strings d.
Proof.
  now rewrite !arg_strings_flat_map.
Qed.

Lemma arg_strings_entry (pre suf : Dict) (k : string) (v : Value) :
  arg_strings (pre ++ (k, v) :: suf) = arg_strings pre ++ emit k v ++ arg_strings suf.
Proof.
  now rewrite arg_strings_app, arg_strings_cons.
Qed.

Lemma flag_inj (k k' : string) : flag k = flag k' -> k = k'.
Proof.
  unfold flag. simpl. intro H. now inversion H.
Qed.

(** A key of a dict names one entry: the entries before and after it have
    other keys. *)
Lemma entry_split (d : Dict) (k : string) (v : Value) :
  NoDup (keys d) -> In (k, v) d ->
  exists pre suf,
    d = pre ++ (k, v) :: suf /\ ~ In k (keys pre) /\ ~ In k (keys suf).
Proof.
  unfold keys.
  induction d as [|[k0 v0] rest IH]; intros Hnd Hin; [destruct Hin|].
  simpl in Hnd. inversion Hnd as [|? ? Hk0 Hrest]; subst.
  destruct Hin as [Heq | Hin].
  - inversion Heq; subst. exists [], rest. simpl. repeat split; auto.
  - destruct (IH Hrest Hin) as (pre & suf & -> & Hpre & Hsuf).
    exists ((k0, v0) :: pre), suf. simpl. repeat split; auto.
    intros [-> | Hk]; [|now apply Hpre].
    apply Hk0. rewrite map_app. apply in_or_app. right. now left.
Qed.

(** The three shapes of what an entry emits. *)
Lemma emit_True (k : string) : emit k (PyBool true) = [flag k].
Proof. reflexivity. Qed.

Lemma emit_None (k : string) (v : Value) :
  v = PyNone \/ v = PyStr "None" -> emit k v = [flag k].
Proof. now intros [-> | ->]. Qed.

Lemma emit_valued (k : string) (v : Value) :
  v <> PyBool true -> v <> PyNone -> v <> PyStr "None" ->
  emit k v = [flag k; str v].
Proof.
  intros HT HN HS. unfold emit.
  destruct v as [|[|]|s|z]; try reflexivity; try congruence.
  simpl. destruct (String.eqb_spec s "None") as [->|Hne]; [congruence|reflexivity].
Qed.

Lemma emit_starts_with_flag (k : string) (v : Value) :
  hd_error (emit k v) = Some (flag k).
Proof.
  unfold emit. destruct (is_True v); [reflexivity|].
  now destruct (negb (contains [PyNone; PyStr "None"] v)).
Qed.

Ltac solve_keys :=
  unfold keys; simpl;
  repeat (constructor; [simpl; intuition discriminate|]); try constructor;
  simpl; intuition discriminate.

Section Parser.

Variable Namespace : Type.
Variable parse_args : list string -> ParseResult Namespace.

(** The parser receives [arg_strings] of the mapping. *)
Lemma parse_vllm_args_result (st : Store) :
  snd (parse_vllm_args parse_args st) = parse_args (arg_strings (cli_args st)).
Proof. reflexivity. Qed.

(** C10: an entry whose value is [False] puts two strings in the argument
    list, the flag and ["False"]: it is neither left out nor a bare flag. *)
Theorem parse_vllm_args_False (st : Store) (k : string) :
  In (k, PyBool false) (cli_args st) ->
  exists pre suf,
    cli_args st = pre ++ (k, PyBool false) :: suf
    /\ snd (parse_vllm_args parse_args st) = parse_args (arg_strings (cli_args st))
    /\ arg_strings (cli_args st) = arg_strings pre ++ [flag k; "False"] ++ arg_strings suf
    /\ emit k (PyBool false) = [flag k; "False"]
    /\ emit k (PyBool false) <> [flag k]
    /\ emit k (PyBool false) <> [].
Proof.
  intro Hin. destruct (in_split _ _ Hin) as (pre & suf & Hd).
  exists pre, suf. split; [exact Hd|].
  split; [apply parse_vllm_args_result|].
  split; [rewrite Hd; apply arg_strings_entry|].
  repeat split; discriminate.
Qed.

(** C6: a call leaves the mapping as it found it and adds one log line
    per entry, nothing else; its result depends on the mapping alone, so
    a second call on the same mapping, also one made right after the
    first, returns an equal result. *)
Theorem parse_vllm_args_pure (st st' : Store) :
  cli_args st' = cli_args st ->
  snd (parse_vllm_args parse_args st') = snd (parse_vllm_args parse_args st)
  /\ snd (parse_vllm_args parse_args (fst (parse_vllm_args parse_args st))) = snd (parse_vllm_args parse_args st)
  /\ cli_args (fst (parse_vllm_args parse_args st)) = cli_args st
  /\ log (fst (parse_vllm_args parse_args st))
     = log st ++ map (fun kv => log_line (fst kv) (snd kv)) (cli_args st).
Proof.
  intro Heq. repeat split.
  now rewrite !parse_vllm_args_result, Heq.
Qed.

End Parser.

(** C10 on a mapping with a [False] entry. *)
Lemma parse_vllm_args_False_witness :
  let d := [("model", PyStr "demo-7b"); ("enforce-eager", PyBool false)] in
  In ("enforce-eager", PyBool false) d /\
  exists pre suf,
    d = pre ++ ("enforce-eager", PyBool false) :: suf
    /\ arg_strings d = arg_strings pre ++ ["--enforce-eager"; "False"] ++ arg_strings suf.
Proof.
  intro d.
  assert (Hin : In ("enforce-eager", PyBool false) d) by (simpl; auto).
  split; [exact Hin|].
  destruct (parse_vllm_args_False Demo.parse_args (Demo.store d) "enforce-eager" Hin)
    as (pre & suf & Hd & _ & Hargs & _).
  exists pre, suf. split; [exact Hd | exact Hargs].
Defined.

(** C6 on two stores that hold the same mapping and different logs. *)
Lemma parse_vllm_args_pure_witness :
  let d := [("model", PyStr "demo-7b"); ("response_role", PyStr "assistant")] in
  let st := Demo.store d in
  let st' := {| cli_args := d; log := ["Starting"] |} in
  cli_args st' = cli_args st
  /\ snd (parse_vllm_args Demo.parse_args st') = snd (parse_vllm_args Demo.parse_args st)
  /\ cli_args (fst (parse_vllm_args Demo.parse_args st)) = d.
Proof.
  intros d st st'.
  assert (Heq : cli_args st' = cli_args st) by reflexivity.
  split; [exact Heq|].
  destruct (parse_vllm_args_pure Demo.parse_args st st' Heq) as (H1 & _ & H3 & _).
  split; [exact H1 | exact H3].
Defined.

(** C7 as stated fails: with a parser whose options have defaults, a
    mapping without the model key, and one without the response-role key,
    are translated to a namespace. *)
Lemma parse_vllm_args_missing_key_accepted :
  (~ In "model" (keys [("response_role", PyStr "user")])
   /\ snd (parse_vllm_args Demo.parse_args (Demo.store [("response_role", PyStr "user")]))
      = Parsed {| Demo.ns_model := "facebook/opt-125m"; Demo.ns_response_role := "user" |})
  /\ (~ In "response_role" (keys [("model", PyStr "demo-7b")])
      /\ snd (parse_vllm_args Demo.parse_args (Demo.store [("model", PyStr "demo-7b")]))
         = Parsed {| Demo.ns_model := "demo-7b"; Demo.ns_response_role := "assistant" |}).
Proof.
  split; (split; [solve_keys | reflexivity]).
Qed.

End ConfigTranslatorFacts.

(** ** The handlers, one request at a time *)

Module HandlerFacts.

Import Serving.

Section Engine.

Variable ModelConfig : Type.
Variable RawRequest : Type.
Variable RequestLogger : Type.
Variable get_model_config : ModelConfig.
Variable serving_chat_create :
  OpenAIServingChat ModelConfig RequestLogger ->
  ChatCompletionRequest -> RawRequest -> ServingResult.

Implicit Types (w : Replica ModelConfig RequestLogger) (request : ChatCompletionRequest)
  (raw_request : RawRequest).

(** The response comes from [respond], on what the serving object returns. *)
Lemma create_chat_completion_outcome w request raw_request :
  snd (create_chat_completion get_model_config serving_chat_create w request raw_request)
  = respond request
      (serving_chat_create (serving_object get_model_config w) request raw_request).
Proof.
  unfold create_chat_completion, serving_object.
  now destruct (openai_serving_chat (self w)).
Qed.

(** After a chat request the serving object is set, to the one that
    served the request. *)
Lemma create_chat_completion_ready w request raw_request :
  openai_serving_chat
    (self (fst (create_chat_completion get_model_config serving_chat_create w request raw_request)))
  = Some (serving_object get_model_config w).
Proof.
  unfold create_chat_completion, serving_object.
  destruct (openai_serving_chat (self w)) eqn:E; simpl; [exact E | reflexivity].
Qed.

(** A chat request that finds the serving object set leaves [self] alone
    and issues the chat call only. *)
Lemma create_chat_completion_when_ready w request raw_request f :
  openai_serving_chat (self w) = Some f ->
  fst (create_chat_completion get_model_config serving_chat_create w request raw_request)
  = call_engine (ChatCompletion (object_id f) request) w.
Proof.
  unfold create_chat_completion. now intros ->.
Qed.

Lemma respond_not_streaming request generator :
  stream request = false ->
  forall c m, respond request generator <> Returned (StreamingResponse c m).
Proof.
  intros Hs c m. unfold respond. rewrite Hs.
  destruct generator; discriminate.
Qed.

(** C3: a chat request gets one response, decided by the kind of value
    the serving object returns and by [request.stream].  With
    [stream = false] the response is the JSON of the error or the JSON of
    the completion, never a streaming response (the serving object
    returns no generator for such a request, which the handler asserts);
    with [stream = true] and no error it is the streaming response over
    the generator itself. *)
Theorem create_chat_completion_variant w request raw_request :
  let generator :=
    serving_chat_create (serving_object get_model_config w) request raw_request in
  let outcome :=
    snd (create_chat_completion get_model_config serving_chat_create w request raw_request) in
  (stream request = false -> forall chunks, generator <> Generator chunks) ->
  (stream request = false ->
     ((exists e, generator = Error e
                 /\ outcome = Returned (JSONResponse (error_model_dump e) (code e)))
      \/ (exists r, generator = Completion r
                    /\ outcome = Returned (JSONResponse (completion_model_dump r)
                                             default_status_code)))
     /\ forall c m, outcome <> Returned (StreamingResponse c m))
  /\ (stream request = true -> (forall e, generator <> Error e) ->
      outcome = Returned (StreamingResponse generator "text/event-stream")).
Proof.
  intros generator outcome Hcontract.
  subst outcome. rewrite create_chat_completion_outcome. fold generator.
  split.
  - intro Hs. split; [|now apply respond_not_streaming].
    specialize (Hcontract Hs). unfold respond. rewrite Hs.
    destruct generator as [e | r | chunks].
    + left. now exists e.
    + right. now exists r.
    + now destruct (Hcontract chunks).
  - intros Hs Hne. unfold respond. rewrite Hs.
    destruct generator as [e | r | chunks]; [now destruct (Hne e) | reflexivity | reflexivity].
Qed.

(** C4: when the serving object reports an error, the handler returns
    (it does not raise) a JSON response whose body holds the error's code
    and message and whose status is that code; a completion of a request
    with [stream = false] is returned as JSON with status 200. *)
Theorem create_chat_completion_error w request raw_request :
  let generator :=
    serving_chat_create (serving_object get_model_config w) request raw_request in
  let outcome :=
    snd (create_chat_completion get_model_config serving_chat_create w request raw_request) in
  (forall e, generator = Error e ->
     outcome = Returned (JSONResponse
                           (JObject [("code", JNum (code e)); ("message", JStr (message e))])
                           (code e))
     /\ outcome <> AssertionError)
  /\ (forall r, generator = Completion r -> stream request = false ->
      outcome = Returned (JSONResponse (completion_model_dump r) 200)).
Proof.
  intros generator outcome. subst outcome.
  rewrite create_chat_completion_outcome. fold generator.
  split.
  - intros e ->. split; [reflexivity | discriminate].
  - intros r -> Hs. unfold respond. now rewrite Hs.
Qed.

(** C5: the model list of [list_models] has one base model path, whose
    name and path are the configured model, then the configured LoRA
    module paths, then the configured prompt-adapter paths, each in the
    order of the configuration; the registry handed to the serving object
    is built the same way. *)
Theorem list_models_paths w :
  let d := self w in
  let m := model (engine_args d) in
  snd (list_models get_model_config w)
  = Returned
      (JSONResponse
         (model_list_dump
            ({| kind := BaseModel; path_name := m; path := m |}
             :: map (fun l => {| kind := LoRAModule; path_name := lora_name l;
                                 path := lora_path l |})
                  (of_optional (lora_modules d))
             ++ map (fun a => {| kind := PromptAdapter; path_name := adapter_name a;
                                 path := local_path a |})
                  (of_optional (prompt_adapters d))))
         200)
  /\ base_model_paths (serving_models d get_model_config)
     = [ {| name := m; model_path := m |} ]
  /\ models_lora_modules (serving_models d get_model_config) = lora_modules d
  /\ models_prompt_adapters (serving_models d get_model_config) = prompt_adapters d
  /\ (openai_serving_chat d = None ->
      chat_models (serving_object get_model_config w)
      = serving_models d get_model_config).
Proof.
  intros d m. repeat split.
  intro Hn. unfold serving_object. subst d. now rewrite Hn.
Qed.

(** C8, as the code has it: [list_models] issues one engine-metadata call
    of its own, whatever the serving state, and no other engine call; it
    leaves [self] as it found it, and its response is computed from the
    configuration and the model config just fetched. *)
Theorem list_models_engine_call w :
  engine_calls (fst (list_models get_model_config w))
  = engine_calls w ++ [GetModelConfig ListModels]
  /\ metadata_calls (fst (list_models get_model_config w)) = S (metadata_calls w)
  /\ build_calls (fst (list_models get_model_config w)) = build_calls w
  /\ self (fst (list_models get_model_config w)) = self w
  /\ constructed (fst (list_models get_model_config w)) = constructed w
  /\ snd (list_models get_model_config w)
     = models_response (serving_models (self w) get_model_config).
Proof.
  unfold list_models, metadata_calls, build_calls. simpl.
  rewrite !filter_app, !length_app. simpl.
  repeat split; lia.
Qed.

End Engine.

(** C3 on a buffered request to the demo engine. *)
Lemma create_chat_completion_variant_witness :
  let request := Demo.request "demo-7b" false in
  (stream request = false ->
   forall chunks,
     Demo.serving_chat_create (serving_object tt Demo.fresh) request tt <> Generator chunks)
  /\ snd (Demo.create Demo.fresh request)
     = Returned (JSONResponse (completion_model_dump Demo.completion) 200).
Proof.
  intro request.
  assert (Hc : stream request = false ->
               forall chunks,
                 Demo.serving_chat_create (serving_object tt Demo.fresh) request tt
                 <> Generator chunks) by (intros _ chunks; discriminate).
  split; [exact Hc|].
  destruct (create_chat_completion_variant tt Demo.serving_chat_create Demo.fresh request tt Hc)
    as [Hbuffered _].
  destruct (Hbuffered eq_refl) as [[(e & He & Ho) | (r & Hr & Ho)] _].
  - discriminate He.
  - injection Hr as <-. exact Ho.
Defined.

(** C4 on a request for a model the demo engine does not know. *)
Lemma create_chat_completion_error_witness :
  snd (Demo.create Demo.fresh (Demo.request "other" false))
  = Returned (JSONResponse
                (JObject [("code", JNum 404); ("message", JStr "The model does not exist.")])
                404).
Proof.
  apply (proj1 (create_chat_completion_error tt Demo.serving_chat_create Demo.fresh
                  (Demo.request "other" false) tt) Demo.unknown_model).
  reflexivity.
Defined.

(** C5 on the demo replica, configured with the LoRA modules A and B. *)
Lemma list_models_paths_witness :
  snd (list_models tt Demo.fresh)
  = Returned
      (JSONResponse
         (JList [JObject [("name", JStr "demo-7b"); ("path", JStr "demo-7b")];
                 JObject [("name", JStr "A"); ("path", JStr "/loras/A")];
                 JObject [("name", JStr "B"); ("path", JStr "/loras/B")]])
         200).
Proof.
  exact (proj1 (list_models_paths tt Demo.fresh)).
Defined.

(** C8 as stated fails: after the serving object is built, a
    [list_models] request reaches the engine once more. *)
Lemma list_models_calls_engine_again :
  let w := fst (Demo.create Demo.fresh (Demo.request "demo-7b" false)) in
  openai_serving_chat (self w) <> None
  /\ metadata_calls w = 1
  /\ metadata_calls (fst (list_models tt w)) = 2
  /\ engine_calls (fst (list_models tt w)) <> engine_calls w.
Proof.
  repeat split; discriminate.
Qed.

End HandlerFacts.

(** ** The handlers under the event loop *)

Module EventLoopFacts.

Import Serving.

Lemma set_nth_length {A : Type} (i : nat) (x : A) (l : list A) :
  List.length (set_nth i x l) = List.length l.
Proof.
  revert i. induction l as [|y l IH]; intros [|i]; simpl; auto.
Qed.

Lemma set_nth_map {A B : Type} (f : A -> B) (i : nat) (x y : A) (l : list A) :
  nth_error l i = Some y -> f x = f y ->
  map f (set_nth i x l) = map f l.
Proof.
  revert i. induction l as [|z l IH]; intros [|i] Hn Hf; simpl in *; try discriminate.
  - inversion Hn; subst. now rewrite Hf.
  - now rewrite (IH i Hn Hf).
Qed.

Lemma set_nth_sum {A : Type} (f : A -> nat) (i : nat) (x y : A) (l : list A) :
  nth_error l i = Some y ->
  list_sum (map f (set_nth i x l)) + f y = list_sum (map f l) + f x.
Proof.
  revert i. induction l as [|z l IH]; intros [|i] Hn; simpl in *; try discriminate.
  - inversion Hn; subst. lia.
  - specialize (IH i Hn). lia.
Qed.

Lemma nth_error_sum_le {A : Type} (f : A -> nat) (i : nat) (y : A) (l : list A) :
  nth_error l i = Some y -> f y <= list_sum (map f l).
Proof.
  revert i. induction l as [|z l IH]; intros [|i] Hn; simpl in *; try discriminate.
  - inversion Hn; subst. lia.
  - specialize (IH i Hn). lia.
Qed.

Lemma set_nth_Forall {A : Type} (P : A -> Prop) (i : nat) (x : A) (l : list A) :
  Forall P l -> P x -> Forall P (set_nth i x l).
Proof.
  intros Hl Hx. revert i.
  induction Hl as [|z l Hz Hl IH]; intros [|i]; simpl; auto.
Qed.

Lemma set_nth_app_here {A : Type} (done rest : list A) (x y : A) :
  set_nth (List.length done) x (done ++ y :: rest) = done ++ x :: rest.
Proof.
  induction done as [|z done IH]; simpl; [reflexivity | now rewrite IH].
Qed.

Lemma nth_error_app_here {A : Type} (done rest : list A) (y : A) :
  nth_error (done ++ y :: rest) (List.length done) = Some y.
Proof.
  induction done as [|z done IH]; simpl; auto.
Qed.

Section Engine.

Variable ModelConfig : Type.
Variable RawRequest : Type.
Variable RequestLogger : Type.
Variable get_model_config : ModelConfig.
Variable serving_chat_create :
  OpenAIServingChat ModelConfig RequestLogger ->
  ChatCompletionRequest -> RawRequest -> ServingResult.

Implicit Types (w : Replica ModelConfig RequestLogger)
  (t : Task ModelConfig RawRequest RequestLogger)
  (ts : list (Task ModelConfig RawRequest RequestLogger))
  (cfg : Replica ModelConfig RequestLogger * list (Task ModelConfig RawRequest RequestLogger))
  (f : OpenAIServingChat ModelConfig RequestLogger).

Local Abbreviation resume' := (resume get_model_config serving_chat_create).
Local Abbreviation run_task' := (run_task get_model_config serving_chat_create).
Local Abbreviation run' := (run get_model_config serving_chat_create).
Local Abbreviation create' := (create_chat_completion get_model_config serving_chat_create).

Lemma build_calls_call_engine (c : EngineCall) w :
  build_calls (call_engine c w) = build_calls w + (if is_build_call c then 1 else 0).
Proof.
  unfold build_calls, call_engine. simpl.
  rewrite filter_app, length_app. simpl.
  destruct (is_build_call c); simpl; lia.
Qed.

(** *** One resumption *)

Lemma resume_handler w t : handler_of (snd (resume' w t)) = handler_of t.
Proof.
  destruct t; simpl; try reflexivity.
  now destruct (openai_serving_chat (self w)).
Qed.

(** A build call is issued only by the step that takes a chat handler
    past line 66. *)
Lemma resume_build_calls w t :
  build_calls (fst (resume' w t)) + chat_begun t
  <= build_calls w + chat_begun (snd (resume' w t)).
Proof.
  destruct t as [r raw | r raw | r raw f | | | m | [|] o]; simpl; try lia.
  - destruct (openai_serving_chat (self w)); simpl;
      rewrite build_calls_call_engine; simpl; lia.
  - rewrite build_calls_call_engine. simpl. unfold build_calls. simpl. lia.
  - rewrite build_calls_call_engine. simpl. lia.
Qed.

Lemma resume_build_calls_mono w t :
  build_calls w <= build_calls (fst (resume' w t)).
Proof.
  destruct t as [r raw | r raw | r raw f | | | m | h o]; simpl; try lia.
  - destruct (openai_serving_chat (self w)); simpl;
      rewrite build_calls_call_engine; simpl; lia.
  - rewrite build_calls_call_engine. simpl. unfold build_calls. simpl. lia.
  - rewrite build_calls_call_engine. simpl. lia.
Qed.

Lemma resume_chat_begun_mono w t :
  chat_begun t <= chat_begun (snd (resume' w t)).
Proof.
  destruct t as [r raw | r raw | r raw f | | | m | [|] o]; simpl; try lia.
Qed.

(** The first chat handler to pass line 66 of a replica without serving
    object issues the build call. *)
Lemma resume_first_build w t :
  openai_serving_chat (self w) = None -> chat_begun t = 0 ->
  (1 <= build_calls (fst (resume' w t)))
  \/ (openai_serving_chat (self (fst (resume' w t))) = None
      /\ chat_begun (snd (resume' w t)) = 0).
Proof.
  intros Hn Hb.
  destruct t as [r raw | r raw | r raw f | | | m | [|] o]; simpl in *; try discriminate;
    try (right; now split).
  left. rewrite Hn. simpl. rewrite build_calls_call_engine. simpl. lia.
Qed.

(** *** Invariants of the loop *)

Lemma run_task_handlers i cfg :
  map handler_of (snd (run_task' i cfg)) = map handler_of (snd cfg).
Proof.
  unfold run_task. destruct (nth_error (snd cfg) i) as [t|] eqn:E; [|reflexivity].
  destruct (resume' (fst cfg) t) as [w' t'] eqn:R. simpl.
  apply set_nth_map with (y := t); [exact E|].
  change t' with (snd (w', t')). rewrite <- R. apply resume_handler.
Qed.

Lemma run_handlers schedule cfg :
  map handler_of (snd (run' schedule cfg)) = map handler_of (snd cfg).
Proof.
  revert cfg. induction schedule as [|i rest IH]; intro cfg; simpl; [reflexivity|].
  unfold run in *. simpl. rewrite IH. apply run_task_handlers.
Qed.

Lemma run_task_upper i cfg :
  build_calls (fst cfg) <= chats_begun (snd cfg) ->
  build_calls (fst (run_task' i cfg)) <= chats_begun (snd (run_task' i cfg)).
Proof.
  intro H. unfold run_task.
  destruct (nth_error (snd cfg) i) as [t|] eqn:E; [|exact H].
  pose proof (resume_build_calls (fst cfg) t) as Hb.
  destruct (resume' (fst cfg) t) as [w' t'] eqn:R. simpl in *.
  pose proof (set_nth_sum chat_begun i t' (snd cfg) E) as Hs.
  unfold chats_begun in *. lia.
Qed.

Lemma run_task_lower i cfg :
  (1 <= build_calls (fst cfg))
  \/ (openai_serving_chat (self (fst cfg)) = None /\ chats_begun (snd cfg) = 0) ->
  (1 <= build_calls (fst (run_task' i cfg)))
  \/ (openai_serving_chat (self (fst (run_task' i cfg))) = None
      /\ chats_begun (snd (run_task' i cfg)) = 0).
Proof.
  intro H. unfold run_task.
  destruct (nth_error (snd cfg) i) as [t|] eqn:E; [|exact H].
  pose proof (resume_build_calls_mono (fst cfg) t) as Hm.
  pose proof (set_nth_sum chat_begun i (snd (resume' (fst cfg) t)) (snd cfg) E) as Hs.
  pose proof (nth_error_sum_le chat_begun i (snd cfg) E) as Hle.
  destruct H as [H | [Hn Hz]].
  - left. destruct (resume' (fst cfg) t) as [w' t']. simpl in *. lia.
  - unfold chats_begun in *.
    assert (Hb : chat_begun t = 0) by lia.
    destruct (resume_first_build (fst cfg) t Hn Hb) as [H1 | [H1 H2]];
      destruct (resume' (fst cfg) t) as [w' t']; simpl in *.
    + now left.
    + right. split; [exact H1 | lia].
Qed.

Lemma run_upper schedule cfg :
  build_calls (fst cfg) <= chats_begun (snd cfg) ->
  build_calls (fst (run' schedule cfg)) <= chats_begun (snd (run' schedule cfg)).
Proof.
  revert cfg. induction schedule as [|i rest IH]; intros cfg H; [exact H|].
  unfold run in *. simpl. apply IH. now apply run_task_upper.
Qed.

Lemma run_lower schedule cfg :
  (1 <= build_calls (fst cfg))
  \/ (openai_serving_chat (self (fst cfg)) = None /\ chats_begun (snd cfg) = 0) ->
  (1 <= build_calls (fst (run' schedule cfg)))
  \/ (openai_serving_chat (self (fst (run' schedule cfg))) = None
      /\ chats_begun (snd (run' schedule cfg)) = 0).
Proof.
  revert cfg. induction schedule as [|i rest IH]; intros cfg H; [exact H|].
  unfold run in *. simpl. apply IH. now apply run_task_lower.
Qed.

Lemma chats_begun_le ts : chats_begun ts <= List.length ts.
Proof.
  unfold chats_begun. induction ts as [|t ts IH]; simpl; [lia|].
  destruct t as [r raw | r raw | r raw f | | | m | [|] o]; simpl; lia.
Qed.

Lemma chats_begun_finished ts :
  forallb is_finished ts = true ->
  Forall (fun h => h = CreateChatCompletion) (map handler_of ts) ->
  chats_begun ts = List.length ts.
Proof.
  unfold chats_begun. induction ts as [|t ts IH]; simpl; intros Hf Hh; [reflexivity|].
  apply andb_prop in Hf. destruct Hf as [Ht Hf].
  inversion Hh as [|? ? Hc Hh']; subst.
  rewrite (IH Hf Hh').
  destruct t as [r raw | r raw | r raw f | | | m | [|] o]; simpl in *; try discriminate.
  reflexivity.
Qed.

Lemma chat_tasks_handlers (requests : list (ChatCompletionRequest * RawRequest)) :
  Forall (fun h => h = CreateChatCompletion)
    (map handler_of (chat_tasks (ModelConfig:=ModelConfig) (RequestLogger:=RequestLogger) requests)).
Proof.
  induction requests; simpl; constructor; auto.
Qed.

Lemma chat_tasks_not_begun (requests : list (ChatCompletionRequest * RawRequest)) :
  chats_begun (chat_tasks (ModelConfig:=ModelConfig) (RequestLogger:=RequestLogger) requests) = 0.
Proof.
  unfold chats_begun. induction requests; simpl; auto.
Qed.

Lemma run_length schedule cfg :
  List.length (snd (run' schedule cfg)) = List.length (snd cfg).
Proof.
  rewrite <- (length_map handler_of), run_handlers. apply length_map.
Qed.

(** *** The loop and the handlers run in turn *)

Lemma run_app s1 s2 cfg : run' (s1 ++ s2) cfg = run' s2 (run' s1 cfg).
Proof. unfold run. apply fold_left_app. Qed.

(** Resumed three times in a row, a chat task does what
    [create_chat_completion] does. *)
Lemma run_chat_to_end w (done rest : list (Task ModelConfig RawRequest RequestLogger))
    (request : ChatCompletionRequest) (raw_request : RawRequest) :
  let i := List.length done in
  run' [i; i; i] (w, done ++ ChatStart request raw_request :: rest)
  = (fst (create' w request raw_request),
     done ++ Finished CreateChatCompletion (snd (create' w request raw_request)) :: rest).
Proof.
  intro i. subst i. unfold run, run_task, create_chat_completion. simpl.
  rewrite nth_error_app_here. simpl.
  destruct (openai_serving_chat (self w)) as [f|] eqn:E; simpl;
    rewrite set_nth_app_here, nth_error_app_here; simpl;
    rewrite set_nth_app_here, nth_error_app_here; simpl;
    now rewrite set_nth_app_here.
Qed.

Lemma in_turn_S (k n : nat) : in_turn k (S n) = [k; k; k] ++ in_turn (S k) n.
Proof. reflexivity. Qed.

Lemma run_in_turn (requests : list (ChatCompletionRequest * RawRequest)) :
  forall w (done : list (Task ModelConfig RawRequest RequestLogger)),
    run' (in_turn (List.length done) (List.length requests)) (w, done ++ chat_tasks requests)
    = (fst (serve_in_turn get_model_config serving_chat_create w requests),
       done ++ map (Finished CreateChatCompletion)
                 (snd (serve_in_turn get_model_config serving_chat_create w requests))).
Proof.
  induction requests as [|[r raw] rest IH]; intros w done; [reflexivity|].
  change (chat_tasks ((r, raw) :: rest))
    with (ChatStart (ModelConfig:=ModelConfig) (RequestLogger:=RequestLogger) r raw
          :: chat_tasks rest).
  cbn [List.length]. rewrite in_turn_S, run_app.
  rewrite (run_chat_to_end w done (chat_tasks rest) r raw).
  cbn [serve_in_turn fst snd].
  destruct (create' w r raw) as [w1 o] eqn:C. cbn [fst snd].
  specialize (IH w1 (done ++ [Finished CreateChatCompletion o])).
  rewrite length_app in IH. cbn [List.length] in IH.
  replace (List.length done + 1) with (S (List.length done)) in IH by lia.
  rewrite <- app_assoc in IH. cbn [app] in IH. rewrite IH.
  destruct (serve_in_turn get_model_config serving_chat_create w1 rest) as [w2 os].
  cbn [fst snd map]. now rewrite <- app_assoc.
Qed.

Lemma create_build_calls_ready w f request raw_request :
  openai_serving_chat (self w) = Some f ->
  build_calls (fst (create' w request raw_request)) = build_calls w
  /\ self (fst (create' w request raw_request)) = self w.
Proof.
  intro E. unfold create_chat_completion. rewrite E. simpl.
  rewrite build_calls_call_engine. simpl. split; [lia | reflexivity].
Qed.

Lemma create_build_calls_fresh w request raw_request :
  openai_serving_chat (self w) = None ->
  build_calls (fst (create' w request raw_request)) = S (build_calls w)
  /\ exists f, openai_serving_chat (self (fst (create' w request raw_request))) = Some f.
Proof.
  intro E. unfold create_chat_completion. rewrite E. simpl.
  rewrite build_calls_call_engine. simpl. split; [|eauto].
  unfold build_calls. simpl. rewrite filter_app, length_app. simpl. lia.
Qed.

Lemma serve_in_turn_ready (requests : list (ChatCompletionRequest * RawRequest)) :
  forall w f,
    openai_serving_chat (self w) = Some f ->
    build_calls (fst (serve_in_turn get_model_config serving_chat_create w requests))
    = build_calls w
    /\ self (fst (serve_in_turn get_model_config serving_chat_create w requests)) = self w.
Proof.
  induction requests as [|[r raw] rest IH]; intros w f E; [now split|].
  cbn [serve_in_turn fst snd].
  destruct (@create_build_calls_ready w f r raw E) as [Hb Hs].
  destruct (create' w r raw) as [w1 o]. cbn [fst] in *.
  assert (E1 : openai_serving_chat (self w1) = Some f) by now rewrite Hs.
  destruct (IH w1 f E1) as [Hb' Hs'].
  destruct (serve_in_turn get_model_config serving_chat_create w1 rest) as [w2 os].
  cbn [fst] in *. split; congruence.
Qed.

(** Handled in turn from a replica without serving object, the requests
    cause one build call: the first one's. *)
Lemma serve_in_turn_builds_once w (requests : list (ChatCompletionRequest * RawRequest)) :
  openai_serving_chat (self w) = None -> requests <> [] ->
  build_calls (fst (serve_in_turn get_model_config serving_chat_create w requests))
  = S (build_calls w).
Proof.
  intros E Hne. destruct requests as [|[r raw] rest]; [congruence|].
  cbn [serve_in_turn fst snd].
  destruct (@create_build_calls_fresh w r raw E) as [Hb [f Hf]].
  destruct (create' w r raw) as [w1 o]. cbn [fst] in *.
  destruct (@serve_in_turn_ready rest w1 f Hf) as [Hb' _].
  destruct (serve_in_turn get_model_config serving_chat_create w1 rest) as [w2 os].
  cbn [fst] in *. congruence.
Qed.

Lemma forallb_finished_map (os : list Outcome) :
  forallb is_finished
    (map (Finished (ModelConfig:=ModelConfig) (RawRequest:=RawRequest)
            (RequestLogger:=RequestLogger) CreateChatCompletion) os) = true.
Proof.
  induction os; simpl; auto.
Qed.

(** Whatever the engine, also one whose [get_model_config] suspends: N
    chat requests sent to a fresh replica and run to their end cause at
    least one and at most N build calls ([get_model_config] of line 67),
    whatever the order in which the event loop resumes the handlers; when
    the handlers run in turn, each to its end before the next begins,
    they cause exactly one. *)
Theorem build_calls_of_concurrent_requests
    (args : AsyncEngineArgs) (role : string)
    (loras : option (list LoRAModulePath)) (adapters : option (list PromptAdapterPath))
    (logger : option RequestLogger) (template : option string)
    (requests : list (ChatCompletionRequest * RawRequest)) (schedule : list nat) :
  let fresh := init (ModelConfig:=ModelConfig) args role loras adapters logger template in
  let final := run' schedule (fresh, chat_tasks requests) in
  let final_in_turn := run' (in_turn 0 (List.length requests)) (fresh, chat_tasks requests) in
  requests <> [] ->
  forallb is_finished (snd final) = true ->
  (1 <= build_calls (fst final) <= List.length requests)
  /\ forallb is_finished (snd final_in_turn) = true
  /\ build_calls (fst final_in_turn) = 1.
Proof.
  intros fresh final final_in_turn Hne Hfin.
  split; [split|].
  - assert (Hinit : (1 <= build_calls (fst (fresh, chat_tasks (ModelConfig:=ModelConfig)
                                                (RequestLogger:=RequestLogger) requests)))
                    \/ (openai_serving_chat (self (fst (fresh, chat_tasks (ModelConfig:=ModelConfig)
                                                (RequestLogger:=RequestLogger) requests))) = None
                        /\ chats_begun (snd (fresh, chat_tasks (ModelConfig:=ModelConfig)
                                                (RequestLogger:=RequestLogger) requests)) = 0)).
    { right. split; [reflexivity | apply chat_tasks_not_begun]. }
    destruct (@run_lower schedule _ Hinit) as [H | [_ H]]; [exact H|].
    fold final in H.
    rewrite chats_begun_finished in H; [| exact Hfin |].
    + unfold final in H. rewrite run_length in H. simpl in H.
      unfold chat_tasks in H. rewrite length_map in H.
      destruct requests; [congruence | discriminate].
    + unfold final. rewrite run_handlers. apply chat_tasks_handlers.
  - assert (Hinit : build_calls (fst (fresh, chat_tasks (ModelConfig:=ModelConfig)
                                        (RequestLogger:=RequestLogger) requests))
                    <= chats_begun (snd (fresh, chat_tasks (ModelConfig:=ModelConfig)
                                        (RequestLogger:=RequestLogger) requests))).
    { simpl. unfold build_calls. simpl. lia. }
    pose proof (@run_upper schedule _ Hinit) as H. fold final in H.
    pose proof (chats_begun_le (snd final)) as H'.
    unfold final in H' at 2. rewrite run_length in H'. simpl in H'.
    unfold chat_tasks in H'. rewrite length_map in H'. lia.
  - subst final_in_turn.
    pose proof (run_in_turn requests fresh []) as H. simpl in H. rewrite H. simpl.
    split; [apply forallb_finished_map|].
    now rewrite serve_in_turn_builds_once.
Qed.

(** *** The serving object once it is set *)

Lemma resume_stays_set w t f :
  openai_serving_chat (self w) = Some f ->
  exists f', openai_serving_chat (self (fst (resume' w t))) = Some f'.
Proof.
  intro E.
  destruct t as [r raw | r raw | r raw f0 | | | m | h o]; simpl; eauto.
  rewrite E. simpl. eauto.
Qed.

(** Only a chat handler suspended at line 67 assigns the field, and no
    handler gets suspended there once the field is set. *)
Lemma resume_keeps_self w t f :
  openai_serving_chat (self w) = Some f ->
  awaits_config t = false ->
  self (fst (resume' w t)) = self w
  /\ awaits_config (snd (resume' w t)) = false.
Proof.
  intros E Ht.
  destruct t as [r raw | r raw | r raw f0 | | | m | h o]; simpl in *;
    try discriminate; try (now split).
  rewrite E. now split.
Qed.

Lemma run_stays_set schedule :
  forall cfg f,
    openai_serving_chat (self (fst cfg)) = Some f ->
    exists f', openai_serving_chat (self (fst (run' schedule cfg))) = Some f'.
Proof.
  induction schedule as [|i rest IH]; intros cfg f E; [eauto|].
  unfold run in *. simpl.
  assert (H : exists f', openai_serving_chat (self (fst (run_task' i cfg))) = Some f').
  { unfold run_task. destruct (nth_error (snd cfg) i) as [t|]; [|eauto].
    destruct (@resume_stays_set (fst cfg) t f E) as [f' Hf'].
    destruct (resume' (fst cfg) t) as [w' t']. simpl in *. eauto. }
  destruct H as [f' Hf']. exact (IH _ f' Hf').
Qed.

Lemma run_keeps_self schedule :
  forall cfg f,
    openai_serving_chat (self (fst cfg)) = Some f ->
    Forall (fun t => awaits_config t = false) (snd cfg) ->
    self (fst (run' schedule cfg)) = self (fst cfg).
Proof.
  induction schedule as [|i rest IH]; intros cfg f E Hts; [reflexivity|].
  unfold run in *. simpl.
  assert (H : self (fst (run_task' i cfg)) = self (fst cfg)
              /\ Forall (fun t => awaits_config t = false) (snd (run_task' i cfg))).
  { unfold run_task. destruct (nth_error (snd cfg) i) as [t|] eqn:En; [|now split].
    assert (Ht : awaits_config t = false).
    { rewrite Forall_forall in Hts. apply Hts. eapply nth_error_In. exact En. }
    destruct (@resume_keeps_self (fst cfg) t f E Ht) as [Hs Ha].
    destruct (resume' (fst cfg) t) as [w' t']. simpl in *.
    split; [exact Hs | now apply set_nth_Forall]. }
  destruct H as [Hs Hts'].
  rewrite (IH (run_task' i cfg) f); [exact Hs | now rewrite Hs | exact Hts'].
Qed.

(** Whatever the engine: once [openai_serving_chat] is set, no handler
    resets it to [None], under any schedule; a request that begins
    afterwards does not rebuild it and is served by the object it finds;
    and as long as no chat handler is suspended at line 67, [self] stays
    as it is under every schedule. *)
Theorem serving_chat_once_set w f :
  openai_serving_chat (self w) = Some f ->
  (forall schedule ts,
     exists f', openai_serving_chat (self (fst (run' schedule (w, ts)))) = Some f')
  /\ (forall schedule ts,
        Forall (fun t => awaits_config t = false) ts ->
        self (fst (run' schedule (w, ts))) = self w)
  /\ (forall request raw_request,
        resume' w (ChatStart request raw_request)
        = (call_engine (ChatCompletion (object_id f) request) w,
           ChatAwaitServing request raw_request f))
  /\ (forall request raw_request,
        self (fst (create' w request raw_request)) = self w
        /\ build_calls (fst (create' w request raw_request)) = build_calls w
        /\ snd (create' w request raw_request)
           = respond request (serving_chat_create f request raw_request))
  /\ self (fst (list_models get_model_config w)) = self w.
Proof.
  intro E. split; [|split; [|split; [|split]]].
  - intros schedule ts. exact (@run_stays_set schedule (w, ts) f E).
  - intros schedule ts Hts. exact (@run_keeps_self schedule (w, ts) f E Hts).
  - intros request raw_request. simpl. now rewrite E.
  - intros request raw_request.
    destruct (@create_build_calls_ready w f request raw_request E) as [Hb Hs].
    repeat split; auto.
    unfold create_chat_completion. now rewrite E.
  - reflexivity.
Qed.

End Engine.

End EventLoopFacts.

(** ** The argument list as a whole *)

Module ArgStringsFacts.

Import Py ConfigTranslator ArgShape ConfigTranslatorFacts.

Lemma emit_bare (k : string) (v : Value) :
  is_bare v = true -> emit k v = [flag k].
Proof.
  unfold is_bare, emit. destruct (is_True v); [reflexivity|].
  intro H. change (contains [PyNone; PyStr "None"] v = true) in H. now rewrite H.
Qed.

Lemma emit_not_bare (k : string) (v : Value) :
  is_bare v = false -> emit k v = [flag k; str v].
Proof.
  unfold is_bare, emit. destruct (is_True v); [discriminate|].
  intro H. change (contains [PyNone; PyStr "None"] v = false) in H. now rewrite H.
Qed.

Lemma emit_alike (e e' : string * Value) :
  alike e e' -> emit (fst e) (snd e) = emit (fst e') (snd e').
Proof.
  intros (Hk & Hb & Hs). rewrite <- Hk.
  destruct (is_bare (snd e)) eqn:B.
  - rewrite (emit_bare _ _ B). symmetry. apply emit_bare. now rewrite <- Hb.
  - rewrite (emit_not_bare _ _ B), (Hs eq_refl). symmetry.
    apply emit_not_bare. now rewrite <- Hb.
Qed.

(** X1: the argument list keeps, of a value, only whether it is bare
    ([True], [None], ["None"]) and otherwise its string form: mappings
    whose entries are alike in that sense give the same list, so [None]
    and [True], or [2] and ["2"], cannot be told apart by the parser. *)
Theorem arg_strings_alike (d d' : Dict) :
  Forall2 alike d d' -> arg_strings d = arg_strings d'.
Proof.
  intro H. rewrite !arg_strings_flat_map.
  induction H as [|e e' d d' He Hd IH]; [reflexivity|].
  simpl. now rewrite (emit_alike He), IH.
Qed.

(** X2: a value spelled like a flag is taken for nothing else in the
    list: the mapping in which [a] holds the string [--b] and [b] is
    [True] and the mapping in which [a] is [True] and [b] holds [--b]
    give the same argument list. *)
Theorem arg_strings_flag_like_value (pre suf : Dict) (a b : string) :
  arg_strings (pre ++ [(a, PyStr (flag b)); (b, PyBool true)] ++ suf)
  = arg_strings (pre ++ [(a, PyBool true); (b, PyStr (flag b))] ++ suf)
  /\ arg_strings (pre ++ [(a, PyStr (flag b)); (b, PyBool true)] ++ suf)
     = arg_strings pre ++ [flag a; flag b; flag b] ++ arg_strings suf.
Proof.
  rewrite !arg_strings_app.
  assert (H1 : arg_strings [(a, PyStr (flag b)); (b, PyBool true)] = [flag a; flag b; flag b]).
  { rewrite !arg_strings_cons. reflexivity. }
  assert (H2 : arg_strings [(a, PyBool true); (b, PyStr (flag b))] = [flag a; flag b; flag b]).
  { rewrite !arg_strings_cons. reflexivity. }
  now rewrite H1, H2.
Qed.

(** X3: the list has one string per entry and one more per entry that is
    not bare, so between one and two strings per entry. *)
Theorem arg_strings_length (d : Dict) :
  List.length (arg_strings d)
  = List.length d + List.length (filter (fun kv => negb (is_bare (snd kv))) d)
  /\ List.length d <= List.length (arg_strings d) <= 2 * List.length d.
Proof.
  assert (H : List.length (arg_strings d)
              = List.length d
                + List.length (filter (fun kv => negb (is_bare (snd kv))) d)
              /\ List.length (filter (fun kv => negb (is_bare (snd kv))) d)
                 <= List.length d).
  { induction d as [|[k v] d [IH1 IH2]]; [split; reflexivity|].
    rewrite arg_strings_cons, length_app, IH1. simpl filter. simpl fst. simpl snd.
    destruct (is_bare v) eqn:B.
    - rewrite (emit_bare k v B). simpl. split; lia.
    - rewrite (emit_not_bare k v B). simpl. split; lia. }
  destruct H as [H1 H2]. split; [exact H1 | lia].
Qed.

(** Every key of the mapping shows as a flag in the list. *)
Lemma flag_in_arg_strings (d : Dict) (k : string) :
  In k (keys d) -> In (flag k) (arg_strings d).
Proof.
  unfold keys. intro Hin. apply in_map_iff in Hin. destruct Hin as ([k0 v] & Hk & Hin).
  simpl in Hk. subst k0.
  destruct (in_split _ _ Hin) as (pre & suf & ->).
  rewrite arg_strings_entry. apply in_or_app. right. apply in_or_app. left.
  pose proof (emit_starts_with_flag k v) as Hh.
  destruct (emit k v) as [|x xs]; [discriminate|]. simpl in Hh. inversion Hh. now left.
Qed.

(** [arg_strings_alike] on three pairs of values. *)
Lemma arg_strings_alike_witness :
  let d := [("chat-template", PyNone); ("tensor-parallel-size", PyInt 2);
            ("enforce-eager", PyBool false)] in
  let d' := [("chat-template", PyBool true); ("tensor-parallel-size", PyStr "2");
             ("enforce-eager", PyStr "False")] in
  Forall2 alike d d' /\ arg_strings d = arg_strings d'.
Proof.
  intros d d'.
  assert (H : Forall2 alike d d').
  { repeat constructor; simpl; discriminate. }
  split; [exact H | exact (arg_strings_alike H)].
Defined.

End ArgStringsFacts.

(** ** build_app *)

Module AppFacts.

Import Py ConfigTranslator Serving App ConfigTranslatorFacts.

Lemma has_key_In (k : string) (d : Dict) : has_key k d = true <-> In k (keys d).
Proof.
  unfold has_key. rewrite existsb_exists. split.
  - intros (x & Hin & Heq). apply String.eqb_eq in Heq. now subst.
  - intro Hin. exists k. split; [exact Hin | apply String.eqb_refl].
Qed.

Lemma remove_key_absent (k : string) (d : Dict) :
  ~ In k (keys d) -> remove_key k d = d.
Proof.
  unfold keys, remove_key. induction d as [|[k0 v] d IH]; intro H; [reflexivity|].
  simpl in *. destruct (String.eqb_spec k k0) as [->|Hne]; simpl.
  - destruct H. now left.
  - rewrite IH; [reflexivity|]. intro Hin. apply H. now right.
Qed.

Lemma remove_key_app (k : string) (d1 d2 : Dict) :
  remove_key k (d1 ++ d2) = remove_key k d1 ++ remove_key k d2.
Proof. apply filter_app. Qed.

Lemma remove_key_not_In (k : string) (d : Dict) : ~ In k (keys (remove_key k d)).
Proof.
  unfold keys, remove_key. intro H. apply in_map_iff in H.
  destruct H as ([k0 v] & Hk & Hin). simpl in Hk. subst k0.
  apply filter_In in Hin. destruct Hin as [_ Hb]. simpl in Hb.
  now rewrite String.eqb_refl in Hb.
Qed.

Lemma get_remove_key_other (k k' : string) (d : Dict) :
  k <> k' -> get k (remove_key k' d) = get k d.
Proof.
  intro Hne. unfold remove_key. induction d as [|[k0 v] d IH]; [reflexivity|].
  simpl. destruct (String.eqb_spec k' k0) as [->|Hne']; simpl.
  - destruct (String.eqb_spec k k0) as [->|_]; [congruence | exact IH].
  - now rewrite IH.
Qed.

Lemma keys_remove_key (k : string) (d : Dict) :
  keys (remove_key k d) = filter (fun k0 => negb (String.eqb k k0)) (keys d).
Proof.
  unfold keys, remove_key. induction d as [|[k0 v] d IH]; [reflexivity|].
  simpl. destruct (String.eqb k k0); simpl; now rewrite IH.
Qed.

Section Parser.

Variable Namespace : Type.
Variable parse_args : list string -> ParseResult Namespace.
Variable from_cli_args : Namespace -> EngineArgs.
Variable ns_response_role : Namespace -> string.
Variable ns_lora_modules : Namespace -> option (list LoRAModulePath).
Variable ns_prompt_adapters : Namespace -> option (list PromptAdapterPath).
Variable ns_chat_template : Namespace -> option string.

Local Abbreviation build :=
  (build_app parse_args from_cli_args ns_response_role ns_lora_modules
     ns_prompt_adapters ns_chat_template).

(** The mapping the parser works on. *)
Lemma popped_mapping (d : Dict) :
  snd (if has_key "accelerator" d then pop "accelerator" d else (PyStr "GPU", d))
  = remove_key "accelerator" d.
Proof.
  destruct (has_key "accelerator" d) eqn:E; [reflexivity|]. simpl.
  symmetry. apply remove_key_absent. intro H. apply has_key_In in H. congruence.
Qed.

Lemma build_app_mapping (env : option string) (st : Store) :
  cli_args (fst (build env st)) = remove_key "accelerator" (cli_args st).
Proof.
  unfold build_app. pose proof (popped_mapping (cli_args st)) as Hp.
  destruct (if has_key "accelerator" (cli_args st) then pop "accelerator" (cli_args st)
            else (PyStr "GPU", cli_args st)) as [acc d].
  simpl in Hp. subst d. unfold parse_vllm_args. cbn [cli_args log].
  destruct (parse_args (arg_strings (remove_key "accelerator" (cli_args st))));
    reflexivity.
Qed.

Lemma build_app_result (env : option string) (st : Store) :
  snd (build env st)
  = match parse_args (arg_strings (remove_key "accelerator" (cli_args st))) with
    | ParserExit status message => BuildExit status message
    | Parsed ns =>
        Built {| actor_options := ray_actor_options;
                 bound_engine_args := set_worker_use_ray true (from_cli_args ns);
                 bound_response_role := ns_response_role ns;
                 bound_lora_modules := ns_lora_modules ns;
                 bound_prompt_adapters := ns_prompt_adapters ns;
                 bound_request_logger := get "request_logger" (cli_args st);
                 bound_chat_template := ns_chat_template ns |}
    end.
Proof.
  unfold build_app. pose proof (popped_mapping (cli_args st)) as Hp.
  destruct (if has_key "accelerator" (cli_args st) then pop "accelerator" (cli_args st)
            else (PyStr "GPU", cli_args st)) as [acc d].
  simpl in Hp. subst d. unfold parse_vllm_args. cbn [cli_args log].
  destruct (parse_args (arg_strings (remove_key "accelerator" (cli_args st)))); [|reflexivity].
  cbn [snd cli_args]. rewrite get_remove_key_other; [reflexivity | discriminate].
Qed.

(** X4: the accelerator entry has no effect.  Put anywhere in a mapping,
    with any value, it changes neither the application built, nor what
    the parser receives, nor the log, nor the mapping left behind: all
    are those of the mapping without the entry. *)
Theorem build_app_ignores_accelerator (env : option string) (pre suf : Dict)
    (v : Value) (lines : list string) :
  ~ In "accelerator" (keys (pre ++ suf)) ->
  build env {| cli_args := pre ++ ("accelerator", v) :: suf; log := lines |}
  = build env {| cli_args := pre ++ suf; log := lines |}.
Proof.
  intro Hno.
  assert (Hrm : remove_key "accelerator" (pre ++ ("accelerator", v) :: suf) = pre ++ suf).
  { rewrite remove_key_app. simpl.
    rewrite <- remove_key_app. now apply remove_key_absent. }
  assert (Hhas : has_key "accelerator" (pre ++ ("accelerator", v) :: suf) = true).
  { apply has_key_In. unfold keys. rewrite map_app. apply in_or_app. right. now left. }
  assert (Hnot : has_key "accelerator" (pre ++ suf) = false).
  { destruct (has_key "accelerator" (pre ++ suf)) eqn:E; [|reflexivity].
    apply has_key_In in E. contradiction. }
  unfold build_app. cbn [cli_args log]. rewrite Hhas, Hnot.
  unfold pop. now rewrite Hrm.
Qed.

(** X5: whatever the parser answers, [build_app] leaves the caller's
    mapping without its accelerator entry and with every other entry as
    it was; when the parser exits, so does [build_app], and the entry is
    gone all the same. *)
Theorem build_app_mapping_after (env : option string) (st : Store) :
  cli_args (fst (build env st)) = remove_key "accelerator" (cli_args st)
  /\ ~ In "accelerator" (keys (cli_args (fst (build env st))))
  /\ keys (cli_args (fst (build env st)))
     = filter (fun k => negb (String.eqb "accelerator" k)) (keys (cli_args st))
  /\ (forall k, k <> "accelerator" ->
        get k (cli_args (fst (build env st))) = get k (cli_args st))
  /\ (forall status message,
        parse_args (arg_strings (remove_key "accelerator" (cli_args st)))
        = ParserExit status message ->
        snd (build env st) = BuildExit status message).
Proof.
  rewrite build_app_mapping. split; [reflexivity|].
  split; [apply remove_key_not_In|].
  split; [apply keys_remove_key|].
  split.
  - intros k Hk. now apply get_remove_key_other.
  - intros status message H. now rewrite build_app_result, H.
Qed.

(** X6: a mapping that holds [request_logger] sends the flag
    [--request_logger] to the parser, as it does for every key but the
    accelerator; an application is built only when the parser accepts
    that list, and the logger it binds is then the mapping's own value. *)
Theorem build_app_request_logger (env : option string) (st : Store) :
  In "request_logger" (keys (cli_args st)) ->
  let args := arg_strings (remove_key "accelerator" (cli_args st)) in
  In "--request_logger" args
  /\ (forall app, snd (build env st) = Built app ->
        (exists ns, parse_args args = Parsed ns)
        /\ bound_request_logger app = get "request_logger" (cli_args st)).
Proof.
  intros Hin args. split.
  - apply (ArgStringsFacts.flag_in_arg_strings _ "request_logger").
    rewrite keys_remove_key. apply filter_In. split; [exact Hin | reflexivity].
  - intros app Happ. rewrite build_app_result in Happ. fold args in Happ.
    destruct (parse_args args) as [ns | status message]; [|discriminate].
    injection Happ as <-. split; [now exists ns | reflexivity].
Qed.

(** X7: what the parser returns reaches the serving object unchanged.
    When the parser accepts, the application carries [worker_use_ray =
    True] whatever [from_cli_args] gave, and the replica created from it
    builds, on its first chat request, a serving object with the parsed
    response role and chat template, content format ["auto"], and a
    registry of the parsed model, LoRA modules and prompt adapters. *)
Theorem build_app_to_serving_object (env : option string) (st : Store) (ns : Namespace)
    (ModelConfig : Type) (get_model_config : ModelConfig) :
  parse_args (arg_strings (remove_key "accelerator" (cli_args st))) = Parsed ns ->
  exists app,
    snd (build env st) = Built app
    /\ worker_use_ray (bound_engine_args app) = true
    /\ tensor_parallel_size (bound_engine_args app) = tensor_parallel_size (from_cli_args ns)
    /\ openai_serving_chat (self (deploy ModelConfig app)) = None
    /\ let f := serving_object get_model_config (deploy ModelConfig app) in
       let m := model (handler_args (from_cli_args ns)) in
       object_id f = 0
       /\ chat_response_role f = ns_response_role ns
       /\ chat_template_of f = ns_chat_template ns
       /\ chat_request_logger f = optional (get "request_logger" (cli_args st))
       /\ chat_template_content_format f = "auto"
       /\ base_model_paths (chat_models f) = [ {| name := m; model_path := m |} ]
       /\ models_lora_modules (chat_models f) = ns_lora_modules ns
       /\ models_prompt_adapters (chat_models f) = ns_prompt_adapters ns.
Proof.
  intro Hp. rewrite build_app_result, Hp.
  eexists. split; [reflexivity|]. repeat split.
Qed.

(** X8: the environment toggle [VLLM_USE_V1] is only logged: whatever its
    value, [build_app] builds the same application or exits the same
    way and leaves the same mapping; only the two log lines that quote
    it can differ. *)
Theorem build_app_env_only_logged (env env' : option string) (st : Store) :
  snd (build env st) = snd (build env' st)
  /\ cli_args (fst (build env st)) = cli_args (fst (build env' st))
  /\ List.length (log (fst (build env st))) = List.length (log (fst (build env' st)))
  /\ firstn (List.length (log st) + List.length (remove_key "accelerator" (cli_args st)))
       (log (fst (build env st)))
     = log st
       ++ map (fun kv => log_line (fst kv) (snd kv)) (remove_key "accelerator" (cli_args st)).
Proof.
  rewrite !build_app_result, !build_app_mapping. split; [reflexivity|]. split; [reflexivity|].
  unfold build_app. pose proof (popped_mapping (cli_args st)) as Hp.
  destruct (if has_key "accelerator" (cli_args st) then pop "accelerator" (cli_args st)
            else (PyStr "GPU", cli_args st)) as [acc d].
  simpl in Hp. subst d. unfold parse_vllm_args. cbn [cli_args log].
  set (lines := log st
                ++ map (fun kv => log_line (fst kv) (snd kv))
                     (remove_key "accelerator" (cli_args st))).
  assert (Hlen : List.length lines
                 = List.length (log st)
                   + List.length (remove_key "accelerator" (cli_args st))).
  { subst lines. now rewrite length_app, length_map. }
  rewrite <- Hlen.
  destruct (parse_args (arg_strings (remove_key "accelerator" (cli_args st))));
    cbn [fst log]; split.
  - now rewrite !length_app.
  - now rewrite firstn_app, firstn_all, Nat.sub_diag, app_nil_r.
  - reflexivity.
  - apply firstn_all.
Qed.

End Parser.

(** [build_app_ignores_accelerator] on the demo application. *)
Lemma build_app_ignores_accelerator_witness :
  let pre := [("model", PyStr "demo-7b")] in
  let suf := [("response_role", PyStr "user")] in
  ~ In "accelerator" (keys (pre ++ suf))
  /\ DemoApp.build (pre ++ ("accelerator", PyStr "TPU") :: suf) = DemoApp.build (pre ++ suf).
Proof.
  intros pre suf.
  assert (H : ~ In "accelerator" (keys (pre ++ suf))) by solve_keys.
  split; [exact H|].
  exact (build_app_ignores_accelerator Demo.parse_args DemoApp.from_cli_args
           Demo.ns_response_role (fun _ => None) (fun _ => None) (fun _ => None)
           None pre suf (PyStr "TPU") [] H).
Defined.

(** [build_app_request_logger] on the demo application, whose parser
    knows no such flag. *)
Lemma build_app_request_logger_witness :
  let d := [("model", PyStr "demo-7b"); ("accelerator", PyStr "GPU");
            ("request_logger", PyStr "on")] in
  In "request_logger" (keys d)
  /\ In "--request_logger" (arg_strings (remove_key "accelerator" d))
  /\ snd (DemoApp.build d) = BuildExit 2 "unrecognized arguments: --request_logger".
Proof.
  intro d.
  assert (H : In "request_logger" (keys d)) by (simpl; auto).
  split; [exact H|].
  split; [|reflexivity].
  exact (proj1 (build_app_request_logger Demo.parse_args DemoApp.from_cli_args
                  Demo.ns_response_role (fun _ => None) (fun _ => None) (fun _ => None)
                  None (Demo.store d) H)).
Defined.

(** [build_app_to_serving_object] on the demo application. *)
Lemma build_app_to_serving_object_witness :
  let d := [("accelerator", PyStr "GPU"); ("model", PyStr "demo-7b");
            ("response_role", PyStr "user")] in
  Demo.parse_args (arg_strings (remove_key "accelerator" d))
  = Parsed {| Demo.ns_model := "demo-7b"; Demo.ns_response_role := "user" |}
  /\ exists app,
       snd (DemoApp.build d) = Built app
       /\ worker_use_ray (bound_engine_args app) = true.
Proof.
  intro d.
  assert (H : Demo.parse_args (arg_strings (remove_key "accelerator" (cli_args (Demo.store d))))
              = Parsed {| Demo.ns_model := "demo-7b"; Demo.ns_response_role := "user" |})
    by reflexivity.
  split; [exact H|].
  destruct (@build_app_to_serving_object Demo.Namespace Demo.parse_args DemoApp.from_cli_args
              Demo.ns_response_role (fun _ => None) (fun _ => None) (fun _ => None)
              None (Demo.store d) _ unit tt H) as (app & Happ & Hray & _).
  exists app. split; [exact Happ | exact Hray].
Defined.

End AppFacts.

(** ** What the handlers add up to *)

Module AccountingFacts.

Import Serving Accounting EventLoopFacts.

Section Engine.

Variable ModelConfig : Type.
Variable RawRequest : Type.
Variable RequestLogger : Type.
Variable get_model_config : ModelConfig.
Variable serving_chat_create :
  OpenAIServingChat ModelConfig RequestLogger ->
  ChatCompletionRequest -> RawRequest -> ServingResult.

Implicit Types (w : Replica ModelConfig RequestLogger)
  (t : Task ModelConfig RawRequest RequestLogger)
  (ts : list (Task ModelConfig RawRequest RequestLogger))
  (cfg : Replica ModelConfig RequestLogger * list (Task ModelConfig RawRequest RequestLogger))
  (f : OpenAIServingChat ModelConfig RequestLogger).

Local Abbreviation resume' := (resume get_model_config serving_chat_create).
Local Abbreviation run_task' := (run_task get_model_config serving_chat_create).
Local Abbreviation run' := (run get_model_config serving_chat_create).
Local Abbreviation create' := (create_chat_completion get_model_config serving_chat_create).

(** *** A balance kept by every resumption is kept by the loop *)

Section Balance.

Variables (gained spent : Replica ModelConfig RequestLogger -> nat)
  (weight : Task ModelConfig RawRequest RequestLogger -> nat).

Hypothesis resume_balance : forall w t,
  gained (fst (resume' w t)) + spent w + weight t
  = gained w + spent (fst (resume' w t)) + weight (snd (resume' w t)).

Lemma run_task_balance i cfg :
  gained (fst cfg) = spent (fst cfg) + total weight (snd cfg) ->
  gained (fst (run_task' i cfg))
  = spent (fst (run_task' i cfg)) + total weight (snd (run_task' i cfg)).
Proof.
  intro H. unfold run_task.
  destruct (nth_error (snd cfg) i) as [t|] eqn:E; [|exact H].
  pose proof (resume_balance (fst cfg) t) as Hb.
  destruct (resume' (fst cfg) t) as [w' t'] eqn:R. simpl in *.
  pose proof (set_nth_sum weight i t' (snd cfg) E) as Hs.
  unfold total in *. lia.
Qed.

Lemma run_balance schedule cfg :
  gained (fst cfg) = spent (fst cfg) + total weight (snd cfg) ->
  gained (fst (run' schedule cfg))
  = spent (fst (run' schedule cfg)) + total weight (snd (run' schedule cfg)).
Proof.
  revert cfg. induction schedule as [|i rest IH]; intros cfg H; [exact H|].
  unfold run in *. simpl. apply IH. now apply run_task_balance.
Qed.

End Balance.

Ltac count_calls := simpl; rewrite ?filter_app, ?length_app; simpl; lia.

Lemma total_not_begun (weight : Task ModelConfig RawRequest RequestLogger -> nat) ts :
  (forall t, not_begun t = true -> weight t = 0) ->
  forallb not_begun ts = true -> total weight ts = 0.
Proof.
  intros Hw. unfold total. induction ts as [|t ts IH]; intro H; [reflexivity|].
  simpl in *. apply andb_prop in H. destruct H as [Ht Hts].
  rewrite (Hw t Ht), (IH Hts). reflexivity.
Qed.

Lemma total_by_handler (weight kind : Task ModelConfig RawRequest RequestLogger -> nat) ts :
  (forall t, is_finished t = true -> weight t = kind t) ->
  forallb is_finished ts = true -> total weight ts = total kind ts.
Proof.
  intros Hw. unfold total. induction ts as [|t ts IH]; intro H; [reflexivity|].
  simpl in *. apply andb_prop in H. destruct H as [Ht Hts].
  rewrite (Hw t Ht), (IH Hts). reflexivity.
Qed.

Lemma total_handlers (kind : Handler -> nat) ts ts' :
  map handler_of ts = map handler_of ts' ->
  total (fun t => kind (handler_of t)) ts = total (fun t => kind (handler_of t)) ts'.
Proof.
  unfold total. intro H.
  rewrite <- (map_map handler_of kind ts), <- (map_map handler_of kind ts').
  now rewrite H.
Qed.

Lemma run_total_is_chat schedule cfg :
  total is_chat (snd (run' schedule cfg)) = total is_chat (snd cfg).
Proof.
  apply (total_handlers
           (fun h => match h with CreateChatCompletion => 1 | ListModels => 0 end)).
  apply run_handlers.
Qed.

Lemma run_total_is_list schedule cfg :
  total is_list (snd (run' schedule cfg)) = total is_list (snd cfg).
Proof.
  apply (total_handlers
           (fun h => match h with CreateChatCompletion => 0 | ListModels => 1 end)).
  apply run_handlers.
Qed.

(** *** The balances of the handlers *)

Lemma resume_builds w t :
  build_calls (fst (resume' w t)) + constructed w + build_pending t
  = build_calls w + constructed (fst (resume' w t)) + build_pending (snd (resume' w t)).
Proof.
  unfold build_calls, build_pending.
  destruct t as [r raw | r raw | r raw f | | | m | h o]; try count_calls.
  simpl. destruct (openai_serving_chat (self w)); count_calls.
Qed.

Lemma resume_chat_calls w t :
  chat_calls (fst (resume' w t)) + 0 + chat_called t
  = chat_calls w + 0 + chat_called (snd (resume' w t)).
Proof.
  unfold chat_calls.
  destruct t as [r raw | r raw | r raw f | | | m | [|] o]; try count_calls.
  simpl. destruct (openai_serving_chat (self w)); count_calls.
Qed.

Lemma resume_metadata_calls w t :
  metadata_calls (fst (resume' w t)) + build_calls w + list_begun t
  = metadata_calls w + build_calls (fst (resume' w t)) + list_begun (snd (resume' w t)).
Proof.
  unfold metadata_calls, build_calls.
  destruct t as [r raw | r raw | r raw f | | | m | [|] o]; try count_calls.
  simpl. destruct (openai_serving_chat (self w)); count_calls.
Qed.

Section Fresh.

Variables (args : AsyncEngineArgs) (role : string)
  (loras : option (list LoRAModulePath)) (adapters : option (list PromptAdapterPath))
  (logger : option RequestLogger) (template : option string).

Local Abbreviation fresh :=
  (init (ModelConfig:=ModelConfig) args role loras adapters logger template).

(** X9: every serving object constructed answers one build call.  From a
    fresh replica and handlers that have not begun, under any schedule,
    the build calls issued are the objects constructed plus the chat
    handlers still suspended at line 67; once all handlers have
    returned, as many objects were constructed as build calls issued. *)
Theorem constructed_per_build_call schedule ts :
  forallb not_begun ts = true ->
  let final := run' schedule (fresh, ts) in
  build_calls (fst final)
  = constructed (fst final) + total build_pending (snd final)
  /\ (forallb is_finished (snd final) = true ->
      constructed (fst final) = build_calls (fst final)).
Proof.
  intros Hnb final.
  assert (H : build_calls (fst final)
              = constructed (fst final) + total build_pending (snd final)).
  { apply (run_balance _ _ _ resume_builds). simpl.
    rewrite total_not_begun; [reflexivity | | exact Hnb].
    now intros [ | | | | | | ]. }
  split; [exact H|]. intro Hfin.
  rewrite (@total_by_handler build_pending (fun _ => 0)) in H; [| | exact Hfin].
  - assert (Hz : forall l, total (fun _ : Task ModelConfig RawRequest RequestLogger => 0) l = 0).
    { unfold total. induction l; simpl; auto. }
    rewrite Hz in H. lia.
  - now intros [ | | | | | | ].
Qed.

(** X10: every chat request reaches the engine once, neither more (no
    retry, also after an error) nor less.  From a fresh replica and
    handlers that have not begun, under any schedule, the chat calls
    received by the engine are the chat handlers past line 90; once all
    handlers have returned, there is one call per chat request. *)
Theorem one_chat_call_per_request schedule ts :
  forallb not_begun ts = true ->
  let final := run' schedule (fresh, ts) in
  chat_calls (fst final) = total chat_called (snd final)
  /\ (forallb is_finished (snd final) = true ->
      chat_calls (fst final) = total is_chat ts).
Proof.
  intros Hnb final.
  assert (H : chat_calls (fst final) = 0 + total chat_called (snd final)).
  { apply (run_balance _ (fun _ => 0) _ resume_chat_calls). simpl.
    rewrite total_not_begun; [reflexivity | | exact Hnb].
    now intros [ | | | | | | ]. }
  simpl in H. split; [exact H|]. intro Hfin.
  rewrite H, (@total_by_handler chat_called is_chat); [| | exact Hfin].
  - unfold final. now rewrite run_total_is_chat.
  - now intros [ | | | | | | [|] ].
Qed.

(** X11: the engine-metadata calls are the build calls plus one per
    [list_models] request, under any schedule: once all handlers have
    returned, the engine has answered as many metadata calls as there
    were build calls and [list_models] requests together. *)
Theorem metadata_calls_split schedule ts :
  forallb not_begun ts = true ->
  let final := run' schedule (fresh, ts) in
  metadata_calls (fst final) = build_calls (fst final) + total list_begun (snd final)
  /\ (forallb is_finished (snd final) = true ->
      metadata_calls (fst final) = build_calls (fst final) + total is_list ts).
Proof.
  intros Hnb final.
  assert (H : metadata_calls (fst final)
              = build_calls (fst final) + total list_begun (snd final)).
  { apply (run_balance _ _ _ resume_metadata_calls). simpl.
    rewrite total_not_begun; [reflexivity | | exact Hnb].
    now intros [ | | | | | | ]. }
  split; [exact H|]. intro Hfin.
  rewrite H, (@total_by_handler list_begun is_list); [| | exact Hfin].
  - unfold final. now rewrite run_total_is_list.
  - now intros [ | | | | | | [|] ].
Qed.

End Fresh.

End Engine.

(** The three balances on two chat requests and a [list_models] request
    whose handlers are interleaved. *)
Lemma constructed_per_build_call_witness :
  let ts := [Demo.chat_task (Demo.request "demo-7b" false); ListStart;
             Demo.chat_task (Demo.request "demo-7b" true)] in
  let final := Demo.loop [0; 1; 2; 1; 0; 2; 1; 0; 2] (Demo.fresh, ts) in
  forallb not_begun ts = true
  /\ forallb is_finished (snd final) = true
  /\ constructed (fst final) = build_calls (fst final)
  /\ build_calls (fst final) = 2.
Proof.
  intros ts final.
  assert (Hnb : forallb not_begun ts = true) by reflexivity.
  assert (Hfin : forallb is_finished (snd final) = true) by reflexivity.
  split; [exact Hnb|]. split; [exact Hfin|]. split; [|reflexivity].
  exact (proj2 (@constructed_per_build_call unit unit unit tt Demo.serving_chat_create
                  {| model := "demo-7b" |} "assistant" (Some [Demo.lora_A; Demo.lora_B])
                  None None None [0; 1; 2; 1; 0; 2; 1; 0; 2] ts Hnb) Hfin).
Defined.

Lemma one_chat_call_per_request_witness :
  let ts := [Demo.chat_task (Demo.request "other" false); ListStart;
             Demo.chat_task (Demo.request "demo-7b" true)] in
  let final := Demo.loop [0; 1; 2; 1; 0; 2; 1; 0; 2] (Demo.fresh, ts) in
  forallb not_begun ts = true
  /\ forallb is_finished (snd final) = true
  /\ chat_calls (fst final) = 2.
Proof.
  intros ts final.
  assert (Hnb : forallb not_begun ts = true) by reflexivity.
  assert (Hfin : forallb is_finished (snd final) = true) by reflexivity.
  split; [exact Hnb|]. split; [exact Hfin|].
  exact (proj2 (@one_chat_call_per_request unit unit unit tt Demo.serving_chat_create
                  {| model := "demo-7b" |} "assistant" (Some [Demo.lora_A; Demo.lora_B])
                  None None None [0; 1; 2; 1; 0; 2; 1; 0; 2] ts Hnb) Hfin).
Defined.

Lemma metadata_calls_split_witness :
  let ts := [Demo.chat_task (Demo.request "demo-7b" false); ListStart;
             Demo.chat_task (Demo.request "demo-7b" true); ListStart] in
  let final := Demo.loop [0; 1; 2; 3; 1; 0; 2; 3; 1; 0; 2; 3] (Demo.fresh, ts) in
  forallb not_begun ts = true
  /\ forallb is_finished (snd final) = true
  /\ metadata_calls (fst final) = build_calls (fst final) + 2.
Proof.
  intros ts final.
  assert (Hnb : forallb not_begun ts = true) by reflexivity.
  assert (Hfin : forallb is_finished (snd final) = true) by reflexivity.
  split; [exact Hnb|]. split; [exact Hfin|].
  exact (proj2 (@metadata_calls_split unit unit unit tt Demo.serving_chat_create
                  {| model := "demo-7b" |} "assistant" (Some [Demo.lora_A; Demo.lora_B])
                  None None None [0; 1; 2; 3; 1; 0; 2; 3; 1; 0; 2; 3] ts Hnb) Hfin).
Defined.

End AccountingFacts.

(** ** How the handlers compose *)

Module CompositionFacts.

Import Serving Accounting EventLoopFacts.

Section Engine.

Variable ModelConfig : Type.
Variable RawRequest : Type.
Variable RequestLogger : Type.
Variable get_model_config : ModelConfig.
Variable serving_chat_create :
  OpenAIServingChat ModelConfig RequestLogger ->
  ChatCompletionRequest -> RawRequest -> ServingResult.

Implicit Types (w : Replica ModelConfig RequestLogger)
  (t : Task ModelConfig RawRequest RequestLogger)
  (ts : list (Task ModelConfig RawRequest RequestLogger))
  (cfg : Replica ModelConfig RequestLogger * list (Task ModelConfig RawRequest RequestLogger))
  (f : OpenAIServingChat ModelConfig RequestLogger).

Local Abbreviation resume' := (resume get_model_config serving_chat_create).
Local Abbreviation run_task' := (run_task get_model_config serving_chat_create).
Local Abbreviation run' := (run get_model_config serving_chat_create).
Local Abbreviation create' := (create_chat_completion get_model_config serving_chat_create).
Local Abbreviation in_turn' := (serve_in_turn get_model_config serving_chat_create).

(** *** Invariants of [self] *)

Section Invariant.

Variable inv : Replica ModelConfig RequestLogger -> Prop.
Hypothesis resume_inv : forall w t, inv w -> inv (fst (resume' w t)).

Lemma run_inv schedule cfg : inv (fst cfg) -> inv (fst (run' schedule cfg)).
Proof.
  revert cfg. induction schedule as [|i rest IH]; intros cfg H; [exact H|].
  unfold run in *. simpl. apply IH. unfold run_task.
  destruct (nth_error (snd cfg) i) as [t|]; [|exact H].
  pose proof (resume_inv t H) as H'.
  now destruct (resume' (fst cfg) t).
Qed.

End Invariant.

Lemma resume_config w t : config (self (fst (resume' w t))) = config (self w).
Proof.
  destruct t as [r raw | r raw | r raw f | | | m | h o]; simpl; try reflexivity.
  now destruct (openai_serving_chat (self w)).
Qed.

Lemma list_models_by_config w w' :
  config (self w') = config (self w) ->
  snd (list_models get_model_config w') = snd (list_models get_model_config w).
Proof.
  unfold config, list_models, serving_models. simpl. intro H.
  injection H as H1 H2 H3 H4 H5 H6. now rewrite H1, H3, H4.
Qed.

(** X12: no handler assigns a field of the configuration.  Under any
    schedule and from any state, [engine_args], [response_role],
    [lora_modules], [prompt_adapters], [request_logger] and
    [chat_template] stay what they were, so [list_models] answers the
    same before and after. *)
Theorem configuration_kept schedule cfg :
  config (self (fst (run' schedule cfg))) = config (self (fst cfg))
  /\ snd (list_models get_model_config (fst (run' schedule cfg)))
     = snd (list_models get_model_config (fst cfg)).
Proof.
  assert (H : config (self (fst (run' schedule cfg))) = config (self (fst cfg))).
  { apply (run_inv (fun w => config (self w) = config (self (fst cfg)))); [|reflexivity].
    intros w t Hw. now rewrite resume_config. }
  split; [exact H | now apply list_models_by_config].
Qed.

Lemma resume_holds_latest w t : holds_latest w -> holds_latest (fst (resume' w t)).
Proof.
  unfold holds_latest.
  destruct t as [r raw | r raw | r raw f | | | m | h o]; simpl; try (intro H; exact H).
  - destruct (openai_serving_chat (self w)) eqn:E; simpl; rewrite E; auto.
  - reflexivity.
Qed.

(** X13: the last build wins.  On a replica created by [__init__], under
    any schedule and whatever the handlers, [self.openai_serving_chat] is
    unset exactly as long as no serving object has been constructed, and
    otherwise holds the object constructed last. *)
Theorem latest_serving_object_held
    (args : AsyncEngineArgs) (role : string)
    (loras : option (list LoRAModulePath)) (adapters : option (list PromptAdapterPath))
    (logger : option RequestLogger) (template : option string) schedule ts :
  let final :=
    run' schedule (init (ModelConfig:=ModelConfig) args role loras adapters logger template, ts) in
  match openai_serving_chat (self (fst final)) with
  | Some f => S (object_id f) = constructed (fst final)
  | None => constructed (fst final) = 0
  end.
Proof.
  intro final.
  apply (run_inv holds_latest resume_holds_latest schedule
           (init (ModelConfig:=ModelConfig) args role loras adapters logger template, ts)).
  reflexivity.
Qed.

(** *** Requests one after the other *)

(** X14: a [list_models] request does not disturb a chat request that
    follows it: the chat request gets the same response, is served by
    the same serving object and leaves the same [self] as without the
    [list_models] request before it. *)
Theorem list_models_then_chat w request (raw_request : RawRequest) :
  let w1 := fst (list_models get_model_config w) in
  snd (create' w1 request raw_request) = snd (create' w request raw_request)
  /\ serving_object get_model_config w1 = serving_object get_model_config w
  /\ self (fst (create' w1 request raw_request)) = self (fst (create' w request raw_request))
  /\ constructed (fst (create' w1 request raw_request))
     = constructed (fst (create' w request raw_request))
  /\ engine_calls (fst (create' w1 request raw_request))
     = engine_calls w
       ++ GetModelConfig ListModels
       :: skipn (List.length (engine_calls w)) (engine_calls (fst (create' w request raw_request))).
Proof.
  intro w1. subst w1. unfold create_chat_completion, list_models, serving_object.
  destruct (openai_serving_chat (self w)) as [f|] eqn:E; simpl; rewrite E; simpl;
    repeat split;
    rewrite <- ?app_assoc, skipn_app, skipn_all, Nat.sub_diag; simpl;
    now rewrite <- ?app_assoc.
Qed.

Lemma create_when_ready w f request (raw_request : RawRequest) :
  openai_serving_chat (self w) = Some f ->
  create' w request raw_request
  = (call_engine (ChatCompletion (object_id f) request) w,
     respond request (serving_chat_create f request raw_request)).
Proof.
  intro E. unfold create_chat_completion. now rewrite E.
Qed.

Lemma create_when_unset w request (raw_request : RawRequest) :
  openai_serving_chat (self w) = None ->
  let f := serving_object get_model_config w in
  create' w request raw_request
  = (call_engine (ChatCompletion (object_id f) request)
       (fst (build_serving_chat (call_engine (GetModelConfig CreateChatCompletion) w)
               get_model_config)),
     respond request (serving_chat_create f request raw_request)).
Proof.
  intros E f. subst f. unfold create_chat_completion, serving_object. now rewrite E.
Qed.

Lemma serve_in_turn_when_ready (requests : list (ChatCompletionRequest * RawRequest)) :
  forall w f,
    openai_serving_chat (self w) = Some f ->
    engine_calls (fst (in_turn' w requests))
    = engine_calls w ++ map (fun rq => ChatCompletion (object_id f) (fst rq)) requests
    /\ constructed (fst (in_turn' w requests)) = constructed w
    /\ self (fst (in_turn' w requests)) = self w
    /\ snd (in_turn' w requests)
       = map (fun rq => respond (fst rq) (serving_chat_create f (fst rq) (snd rq))) requests.
Proof.
  induction requests as [|[r raw] rest IH]; intros w f E.
  - simpl. now rewrite app_nil_r.
  - cbn [serve_in_turn fst snd map]. rewrite (@create_when_ready w f r raw E).
    set (w1 := call_engine (ChatCompletion (object_id f) r) w).
    assert (E1 : openai_serving_chat (self w1) = Some f) by exact E.
    destruct (IH w1 f E1) as (H1 & H2 & H3 & H4).
    destruct (in_turn' w1 rest) as [w2 os]. cbn [fst snd] in *.
    rewrite H1, H2, H3, H4. subst w1. simpl. rewrite <- app_assoc. now repeat split.
Qed.

(** X15: requests handled in turn on a replica without serving object
    cost one metadata call and one construction: the engine receives the
    build call, then one chat call per request in the order of the
    requests, every request is answered by the object the first one
    built, and that object is the one left in [self]. *)
Theorem serve_in_turn_trace w (requests : list (ChatCompletionRequest * RawRequest)) :
  openai_serving_chat (self w) = None ->
  requests <> [] ->
  let f := serving_object get_model_config w in
  engine_calls (fst (in_turn' w requests))
  = engine_calls w
    ++ GetModelConfig CreateChatCompletion
    :: map (fun rq => ChatCompletion (constructed w) (fst rq)) requests
  /\ constructed (fst (in_turn' w requests)) = S (constructed w)
  /\ openai_serving_chat (self (fst (in_turn' w requests))) = Some f
  /\ snd (in_turn' w requests)
     = map (fun rq => respond (fst rq) (serving_chat_create f (fst rq) (snd rq))) requests.
Proof.
  intros E Hne f. destruct requests as [|[r raw] rest]; [congruence|].
  cbn [serve_in_turn fst snd map]. rewrite (@create_when_unset w r raw E). fold f.
  set (w1 := call_engine (ChatCompletion (object_id f) r) _).
  assert (E1 : openai_serving_chat (self w1) = Some f).
  { subst w1 f. unfold serving_object. now rewrite E. }
  assert (Hid : object_id f = constructed w).
  { subst f. unfold serving_object. now rewrite E. }
  destruct (@serve_in_turn_when_ready rest w1 f E1) as (H1 & H2 & H3 & H4).
  destruct (in_turn' w1 rest) as [w2 os]. cbn [fst snd] in *.
  rewrite H1, H2, H3, H4, E1, Hid. subst w1. simpl. rewrite <- !app_assoc, ?Hid.
  now repeat split.
Qed.

(** *** When the handler raises *)

(** X16: [create_chat_completion] raises (the assertion of line 100) in
    one case only: the request has [stream = false] and the serving
    object returned a generator.  A request with [stream = true] always
    gets a response, also when the serving object returned a full
    completion, which is then wrapped in a streaming response. *)
Theorem create_chat_completion_raises w request (raw_request : RawRequest) :
  let generator :=
    serving_chat_create (serving_object get_model_config w) request raw_request in
  (snd (create' w request raw_request) = AssertionError
   <-> stream request = false /\ exists chunks, generator = Generator chunks)
  /\ (forall r, stream request = true -> generator = Completion r ->
      snd (create' w request raw_request)
      = Returned (StreamingResponse (Completion r) "text/event-stream")).
Proof.
  intro generator. rewrite HandlerFacts.create_chat_completion_outcome. fold generator.
  unfold respond. split.
  - destruct generator as [e | r | chunks]; destruct (stream request); split;
      try discriminate; try (intros [H1 [c H2]]; discriminate); auto.
    intros _. split; [reflexivity | now exists chunks].
  - intros r Hs ->. now rewrite Hs.
Qed.

End Engine.

(** [serve_in_turn_trace] on three requests to the demo replica, the
    second for a model the engine does not know. *)
Lemma serve_in_turn_trace_witness :
  let requests := [(Demo.request "demo-7b" false, tt); (Demo.request "other" false, tt);
                   (Demo.request "demo-7b" true, tt)] in
  let final := serve_in_turn tt Demo.serving_chat_create Demo.fresh requests in
  openai_serving_chat (self Demo.fresh) = None
  /\ requests <> []
  /\ engine_calls (fst final)
     = [GetModelConfig CreateChatCompletion;
        ChatCompletion 0 (Demo.request "demo-7b" false);
        ChatCompletion 0 (Demo.request "other" false);
        ChatCompletion 0 (Demo.request "demo-7b" true)]
  /\ constructed (fst final) = 1.
Proof.
  intros requests final.
  assert (E : openai_serving_chat (self Demo.fresh) = None) by reflexivity.
  assert (Hne : requests <> []) by discriminate.
  split; [exact E|]. split; [exact Hne|].
  destruct (@serve_in_turn_trace unit unit unit tt Demo.serving_chat_create
              Demo.fresh requests E Hne) as (H1 & H2 & _).
  split; [exact H1 | exact H2].
Defined.

End CompositionFacts.

(** ** How often a flag occurs in the argument list *)

Module EntryFacts.

Import Py ConfigTranslator ArgShape ConfigTranslatorFacts ArgStringsFacts.

Lemma flag_eqb (k k' : string) : String.eqb (flag k') (flag k) = String.eqb k' k.
Proof. reflexivity. Qed.

Lemma count_occ_emit (key k : string) (v : Value) :
  count_occ string_dec (emit k v) (flag key)
  = (if keyed key (k, v) then 1 else 0) + (if spells key (k, v) then 1 else 0).
Proof.
  unfold keyed, spells. cbn [fst snd].
  destruct (is_bare v) eqn:B.
  - rewrite (emit_bare k v B). cbn [count_occ negb andb].
    destruct (string_dec (flag k) (flag key)) as [E | E].
    + apply flag_inj in E. subst. now rewrite String.eqb_refl.
    + destruct (String.eqb_spec k key) as [-> | _]; [congruence | reflexivity].
  - rewrite (emit_not_bare k v B). cbn [count_occ negb andb].
    destruct (string_dec (flag k) (flag key)) as [E | E];
      destruct (string_dec (str v) (flag key)) as [E' | E'];
      destruct (String.eqb_spec k key) as [Hk | Hk];
      destruct (String.eqb_spec (str v) (flag key)) as [Hs | Hs];
      try reflexivity; try congruence.
    all: apply flag_inj in E; congruence.
Qed.

(** The occurrences of [--key] in the list: one per entry stored under
    [key], one per entry whose value spells [--key]. *)
Lemma count_occ_arg_strings (key : string) (d : Dict) :
  count_occ string_dec (arg_strings d) (flag key)
  = List.length (filter (keyed key) d) + List.length (filter (spells key) d).
Proof.
  induction d as [|[k v] d IH]; [reflexivity|].
  rewrite arg_strings_cons, count_occ_app, IH, count_occ_emit.
  cbn [filter]. destruct (keyed key (k, v)); destruct (spells key (k, v)); simpl; lia.
Qed.

Lemma keyed_absent (key : string) (d : Dict) :
  ~ In key (keys d) -> filter (keyed key) d = [].
Proof.
  unfold keys. induction d as [|[k v] d IH]; intro H; [reflexivity|].
  cbn [filter]. unfold keyed at 1. cbn [fst].
  destruct (String.eqb_spec k key) as [-> | _].
  - destruct H. now left.
  - apply IH. intro Hin. apply H. now right.
Qed.

Lemma keyed_once (key : string) (v : Value) (d : Dict) :
  NoDup (keys d) -> In (key, v) d -> List.length (filter (keyed key) d) = 1.
Proof.
  intros Hnd Hin.
  destruct (entry_split _ _ _ Hnd Hin) as (pre & suf & -> & Hpre & Hsuf).
  rewrite filter_app. cbn [filter]. unfold keyed at 2. cbn [fst].
  rewrite String.eqb_refl.
  now rewrite (@keyed_absent _ _ Hpre), (@keyed_absent _ _ Hsuf).
Qed.

Lemma spells_nowhere (key : string) (d : Dict) :
  (forall k v, In (k, v) d -> spells key (k, v) = false) ->
  filter (spells key) d = [].
Proof.
  induction d as [|[k v] d IH]; intro H; [reflexivity|].
  cbn [filter]. rewrite (H k v (or_introl eq_refl)).
  apply IH. intros k' v' Hin. apply H. now right.
Qed.

(** The string form of an [int] reads back as the number. *)
Lemma str_int_reads_back (z : Z) :
  option_map Z.of_int (NilZero.int_of_string (str (PyInt z))) = Some z.
Proof.
  cbn [str]. rewrite NilZero.isi.
  - cbn [option_map]. now rewrite DecimalZ.of_to.
  - destruct z; try discriminate.
    cbn. intro H. injection H as H. now apply (Unsigned.to_uint_nonnil p).
  - destruct z; try discriminate.
    cbn. intro H. injection H as H. now apply (Unsigned.to_uint_nonnil p).
Qed.

Section Parser.

Variable Namespace : Type.
Variable parse_args : list string -> ParseResult Namespace.

(** C2, as the code has it: for every entry (key, value) of the mapping,
    the argument list handed to the parser holds, at the entry's place,
    the flag [--key] alone when value is [True], [None] or the string
    ["None"], and [--key] followed by [str(value)] otherwise, where
    [--key] is the key after two dashes, a string is its own string
    form, [False] reads ["False"] and an integer its decimal digits.  No
    other entry has [--key] as its flag; the string [--key] occurs in
    the list once, plus once for each entry whose value is passed on and
    has [--key] as its string form, so exactly once when no value does. *)
Theorem parse_vllm_args_entry (st : Store) (k : string) (v : Value) :
  NoDup (keys (cli_args st)) ->
  In (k, v) (cli_args st) ->
  exists pre suf,
    cli_args st = pre ++ (k, v) :: suf
    /\ snd (parse_vllm_args parse_args st) = parse_args (arg_strings (cli_args st))
    /\ arg_strings (cli_args st) = arg_strings pre ++ emit k v ++ arg_strings suf
    /\ (forall k' v', In (k', v') (pre ++ suf) -> flag k' <> flag k)
    /\ count_occ string_dec (arg_strings (cli_args st)) (flag k)
       = 1 + List.length (filter (spells k) (cli_args st))
    /\ ((forall k' v', In (k', v') (cli_args st) -> spells k (k', v') = false) ->
        count_occ string_dec (arg_strings (cli_args st)) (flag k) = 1)
    /\ flag k = String "-" (String "-" k)
    /\ (v = PyBool true -> emit k v = [flag k])
    /\ (v = PyNone \/ v = PyStr "None" -> emit k v = [flag k])
    /\ (v <> PyBool true -> v <> PyNone -> v <> PyStr "None" ->
        emit k v = [flag k; str v])
    /\ (forall s, v = PyStr s -> str v = s)
    /\ (v = PyBool false -> str v = "False")
    /\ (forall z, v = PyInt z ->
        option_map Z.of_int (NilZero.int_of_string (str v)) = Some z).
Proof.
  intros Hnd Hin.
  destruct (entry_split _ _ _ Hnd Hin) as (pre & suf & Hd & Hpre & Hsuf).
  assert (Hcount : count_occ string_dec (arg_strings (cli_args st)) (flag k)
                   = 1 + List.length (filter (spells k) (cli_args st))).
  { now rewrite count_occ_arg_strings, (@keyed_once _ _ _ Hnd Hin). }
  exists pre, suf. split; [exact Hd|].
  split; [apply parse_vllm_args_result|].
  split; [rewrite Hd; apply arg_strings_entry|].
  split.
  { intros k' v' Hin' Hflag. apply flag_inj in Hflag. subst k'.
    apply in_app_or in Hin'. destruct Hin' as [H | H].
    - apply Hpre. unfold keys. change k with (fst (k, v')). now apply in_map.
    - apply Hsuf. unfold keys. change k with (fst (k, v')). now apply in_map. }
  split; [exact Hcount|].
  split; [intro Hno; now rewrite Hcount, (@spells_nowhere _ _ Hno)|].
  split; [reflexivity|].
  split; [intros ->; apply emit_True|].
  split; [apply emit_None|].
  split; [apply emit_valued|].
  split; [now intros s ->|].
  split; [now intros ->|].
  intros z ->. apply str_int_reads_back.
Qed.

(** C7, as the code has it: [parse_vllm_args] checks no required key.
    For a mapping without [key], no entry has [--key] as its flag; the
    string [--key] occurs in the argument list only as the value of an
    entry whose value is passed on and has that string form, so not at
    all when no value does; and the call returns what the engine's parser
    returns on that list: it fails exactly when that parser rejects it. *)
Theorem parse_vllm_args_missing_key (st : Store) (key : string) :
  ~ In key (keys (cli_args st)) ->
  (forall k v, In (k, v) (cli_args st) ->
     hd_error (emit k v) = Some (flag k) /\ flag k <> flag key)
  /\ count_occ string_dec (arg_strings (cli_args st)) (flag key)
     = List.length (filter (spells key) (cli_args st))
  /\ ((forall k v, In (k, v) (cli_args st) -> spells key (k, v) = false) ->
      ~ In (flag key) (arg_strings (cli_args st)))
  /\ (forall r, snd (parse_vllm_args parse_args st) = r
                <-> parse_args (arg_strings (cli_args st)) = r).
Proof.
  intro Hkey.
  assert (Hcount : count_occ string_dec (arg_strings (cli_args st)) (flag key)
                   = List.length (filter (spells key) (cli_args st))).
  { now rewrite count_occ_arg_strings, (@keyed_absent _ _ Hkey). }
  split; [|split; [exact Hcount | split]].
  - intros k v Hin. split; [apply emit_starts_with_flag|].
    intro Hflag. apply flag_inj in Hflag. subst k.
    apply Hkey. unfold keys. change key with (fst (key, v)). now apply in_map.
  - intro Hno. apply (count_occ_not_In string_dec).
    now rewrite Hcount, (@spells_nowhere _ _ Hno).
  - intro r. now rewrite parse_vllm_args_result.
Qed.

End Parser.

(** C2 as stated fails: the value [--b] of [a] puts the flag of [b] in
    the list a second time. *)
Lemma flag_occurs_twice :
  let d := [("a", PyStr "--b"); ("b", PyBool true)] in
  NoDup (keys d)
  /\ In ("b", PyBool true) d
  /\ arg_strings d = ["--a"; "--b"; "--b"]
  /\ count_occ string_dec (arg_strings d) (flag "b") = 2.
Proof.
  intro d. split; [solve_keys|]. split; [simpl; auto|]. split; reflexivity.
Qed.

(** C2 on a mapping with the four kinds of value. *)
Lemma parse_vllm_args_entry_witness :
  let d := [("model", PyStr "demo-7b"); ("enforce-eager", PyBool true);
            ("chat-template", PyNone); ("tensor-parallel-size", PyInt 2)] in
  NoDup (keys d) /\ In ("enforce-eager", PyBool true) d /\
  (exists pre suf,
     d = pre ++ ("enforce-eager", PyBool true) :: suf
     /\ arg_strings d = arg_strings pre ++ ["--enforce-eager"] ++ arg_strings suf)
  /\ count_occ string_dec (arg_strings d) "--enforce-eager" = 1
  /\ arg_strings d
     = ["--model"; "demo-7b"; "--enforce-eager"; "--chat-template";
        "--tensor-parallel-size"; "2"].
Proof.
  intro d.
  assert (Hnd : NoDup (keys d)) by solve_keys.
  assert (Hin : In ("enforce-eager", PyBool true) d) by (simpl; auto).
  split; [exact Hnd|]. split; [exact Hin|].
  destruct (@parse_vllm_args_entry _ Demo.parse_args (Demo.store d) _ _ Hnd Hin)
    as (pre & suf & Hd & _ & Hargs & _ & Hcount & _).
  split; [exists pre, suf; split; [exact Hd | exact Hargs]|].
  split; [exact Hcount | reflexivity].
Defined.

(** C7 on the mapping that holds the response role only. *)
Lemma parse_vllm_args_missing_key_witness :
  let st := Demo.store [("response_role", PyStr "user")] in
  ~ In "model" (keys (cli_args st))
  /\ ~ In "--model" (arg_strings (cli_args st))
  /\ snd (parse_vllm_args Demo.parse_args st) = Demo.parse_args ["--response_role"; "user"].
Proof.
  intro st.
  assert (Hkey : ~ In "model" (keys (cli_args st))) by solve_keys.
  split; [exact Hkey|].
  destruct (@parse_vllm_args_missing_key _ Demo.parse_args st "model" Hkey)
    as (_ & _ & Hno & H).
  split; [|now apply H].
  apply Hno. intros k v [E | []]. now injection E as <- <-.
Defined.

End EntryFacts.

(** ** The loop with the engine of line 55 *)

Module AsyncLLMFacts.

Import Serving Accounting AsyncLLM EventLoopFacts.

Lemma nth_error_set_nth {A : Type} (i : nat) (x y : A) (l : list A) :
  nth_error l i = Some y -> nth_error (set_nth i x l) i = Some x.
Proof.
  revert i. induction l as [|z l IH]; intros [|i] H; simpl in *; try discriminate; auto.
Qed.

Lemma set_nth_twice {A : Type} (i : nat) (x y : A) (l : list A) :
  set_nth i x (set_nth i y l) = set_nth i x l.
Proof.
  revert i. induction l as [|z l IH]; intros [|i]; simpl; auto. now rewrite IH.
Qed.

Section Engine.

Variable ModelConfig : Type.
Variable RawRequest : Type.
Variable RequestLogger : Type.
Variable get_model_config : ModelConfig.
Variable serving_chat_create :
  OpenAIServingChat ModelConfig RequestLogger ->
  ChatCompletionRequest -> RawRequest -> ServingResult.

Implicit Types (w : Replica ModelConfig RequestLogger)
  (t : Task ModelConfig RawRequest RequestLogger)
  (ts : list (Task ModelConfig RawRequest RequestLogger))
  (cfg : Replica ModelConfig RequestLogger * list (Task ModelConfig RawRequest RequestLogger))
  (f : OpenAIServingChat ModelConfig RequestLogger).

Local Abbreviation resume' := (resume get_model_config serving_chat_create).
Local Abbreviation run_task' := (run_task get_model_config serving_chat_create).
Local Abbreviation run' := (run get_model_config serving_chat_create).
Local Abbreviation resume_llm := (resume_async_llm get_model_config serving_chat_create).
Local Abbreviation run_task_llm := (run_task_async_llm get_model_config serving_chat_create).
Local Abbreviation run_llm := (run_async_llm get_model_config serving_chat_create).

(** *** Every run with this engine is a run of the general loop *)

Lemma resume_async_llm_refines w t :
  resume_llm w t = resume' w t
  \/ resume_llm w t = resume' (fst (resume' w t)) (snd (resume' w t)).
Proof.
  destruct t as [r raw | r raw | r raw f | | | m | h o]; try (now left).
  - simpl. destruct (openai_serving_chat (self w)); [now left | now right].
  - now right.
Qed.

Lemma run_task_async_llm_refines i cfg :
  run_task_llm i cfg = run_task' i cfg
  \/ run_task_llm i cfg = run_task' i (run_task' i cfg).
Proof.
  unfold run_task_async_llm, run_task.
  destruct (nth_error (snd cfg) i) as [t|] eqn:E.
  - destruct (resume_async_llm_refines (fst cfg) t) as [H | H]; rewrite H.
    + now left.
    + right. destruct (resume' (fst cfg) t) as [w1 t1]. cbn [fst snd].
      rewrite (nth_error_set_nth i t1 (snd cfg) E).
      destruct (resume' w1 t1) as [w2 t2]. now rewrite set_nth_twice.
  - left. reflexivity.
Qed.

Lemma run_async_llm_refines schedule :
  forall cfg, exists schedule', run_llm schedule cfg = run' schedule' cfg.
Proof.
  induction schedule as [|i rest IH]; intro cfg.
  - now exists [].
  - unfold run_async_llm. cbn [fold_left].
    destruct (IH (run_task_llm i cfg)) as [s' Hs']. unfold run_async_llm in Hs'.
    rewrite Hs'.
    destruct (run_task_async_llm_refines i cfg) as [H | H]; rewrite H.
    + now exists (i :: s').
    + now exists (i :: i :: s').
Qed.

Lemma run_async_llm_handlers schedule cfg :
  map handler_of (snd (run_llm schedule cfg)) = map handler_of (snd cfg).
Proof.
  destruct (run_async_llm_refines schedule cfg) as [s' ->]. apply run_handlers.
Qed.

(** *** One build *)

Lemma chats_begun_none_served ts f :
  chats_begun ts = 0 -> Forall (served_by f) ts.
Proof.
  unfold chats_begun. induction ts as [|t ts IH]; intro H; [constructor|].
  simpl in H. constructor.
  - destruct t; simpl in *; try exact I. lia.
  - apply IH. lia.
Qed.

(** A step that leaves [self] and the two counts alone keeps
    [single_build]. *)
Lemma single_build_quiet w w' ts i t t' :
  nth_error ts i = Some t ->
  single_build (w, ts) ->
  self w' = self w ->
  constructed w' = constructed w ->
  build_calls w' = build_calls w ->
  Forall (chat_call_on 0) (engine_calls w') ->
  awaits_config t' = false ->
  (openai_serving_chat (self w) = None -> chat_begun t' = chat_begun t) ->
  (forall f, openai_serving_chat (self w) = Some f -> served_by f t') ->
  single_build (w', set_nth i t' ts).
Proof.
  intros E (Ha & Hc & Hs) Hself Hcon Hbuild Hcalls Ht' Hnone Hsome.
  unfold single_build in *. cbn [fst snd] in *.
  split; [now apply set_nth_Forall|]. split; [exact Hcalls|].
  rewrite Hself, Hcon, Hbuild.
  destruct (openai_serving_chat (self w)) as [f|].
  - destruct Hs as (H1 & H2 & H3 & H4). repeat split; auto.
    apply set_nth_Forall; auto.
  - destruct Hs as (H1 & H2 & H3). repeat split; auto.
    pose proof (set_nth_sum chat_begun i t' ts E) as Hsum.
    unfold chats_begun in *. rewrite (Hnone eq_refl) in Hsum. lia.
Qed.

Lemma calls_on_snoc (calls : list EngineCall) (c : EngineCall) :
  Forall (chat_call_on 0) calls -> chat_call_on 0 c ->
  Forall (chat_call_on 0) (calls ++ [c]).
Proof.
  intros H Hc. apply Forall_app. split; [exact H | now constructor].
Qed.

Ltac quiet_step E Inv Hc :=
  eapply single_build_quiet; [exact E | exact Inv | ..];
  try reflexivity; try exact Hc; try (intros; exact I);
  try (rewrite build_calls_call_engine; simpl; lia);
  try (apply calls_on_snoc; [exact Hc | exact I]).

Lemma run_task_async_llm_single_build i cfg :
  single_build cfg -> single_build (run_task_llm i cfg).
Proof.
  destruct cfg as [w ts]. intro Inv. unfold run_task_async_llm. cbn [fst snd].
  destruct (nth_error ts i) as [t|] eqn:E; [|exact Inv].
  assert (Ht : awaits_config t = false).
  { destruct Inv as (Ha & _). rewrite Forall_forall in Ha. apply Ha.
    eapply nth_error_In. exact E. }
  pose proof Inv as (Ha & Hc & Hs). cbn [fst snd] in *.
  destruct t as [r raw | r raw | r raw g | | | m | h o]; cbn [resume_async_llm resume].
  - destruct (openai_serving_chat (self w)) as [f|] eqn:O.
    + destruct Hs as (H1 & H2 & H3 & H4).
      eapply single_build_quiet; [exact E | exact Inv | try reflexivity ..].
      * rewrite build_calls_call_engine. simpl. lia.
      * apply calls_on_snoc; [exact Hc | exact H3].
      * intro O'. congruence.
      * intros f' O'. simpl. congruence.
    + destruct Hs as (H1 & H2 & H3).
      unfold single_build. cbn [fst snd build_serving_chat call_engine self engine_calls
                                  constructed set_openai_serving_chat openai_serving_chat
                                  serving_chat object_id].
      split; [now apply set_nth_Forall|].
      split.
      { apply calls_on_snoc; [apply calls_on_snoc; [exact Hc | exact I] | exact H2]. }
      repeat split.
      * rewrite build_calls_call_engine. unfold build_calls in *. cbn [engine_calls].
        rewrite filter_app, length_app. simpl. lia.
      * now rewrite H2.
      * exact H2.
      * apply set_nth_Forall; [now apply chats_begun_none_served | reflexivity].
  - discriminate Ht.
  - quiet_step E Inv Hc.
  - quiet_step E Inv Hc.
  - quiet_step E Inv Hc.
  - quiet_step E Inv Hc.
  - quiet_step E Inv Hc.
Qed.

Lemma run_async_llm_single_build schedule :
  forall cfg, single_build cfg -> single_build (run_llm schedule cfg).
Proof.
  induction schedule as [|i rest IH]; intros cfg H; [exact H|].
  unfold run_async_llm in *. cbn [fold_left]. apply IH.
  now apply run_task_async_llm_single_build.
Qed.

Lemma single_build_init
    (args : AsyncEngineArgs) (role : string)
    (loras : option (list LoRAModulePath)) (adapters : option (list PromptAdapterPath))
    (logger : option RequestLogger) (template : option string) ts :
  forallb not_begun ts = true ->
  single_build (init (ModelConfig:=ModelConfig) args role loras adapters logger template, ts).
Proof.
  intro Hnb. unfold single_build. cbn [fst snd init self openai_serving_chat
                                         engine_calls constructed].
  split; [|split; [constructor | repeat split]].
  - induction ts as [|t ts IH]; [constructor|].
    simpl in Hnb. apply andb_prop in Hnb. destruct Hnb as [Ht Hts].
    constructor; [now destruct t | now apply IH].
  - unfold chats_begun. induction ts as [|t ts IH]; [reflexivity|].
    simpl in Hnb. apply andb_prop in Hnb. destruct Hnb as [Ht Hts].
    simpl. rewrite (IH Hts). now destruct t.
Qed.

Section Fresh.

Variables (args : AsyncEngineArgs) (role : string)
  (loras : option (list LoRAModulePath)) (adapters : option (list PromptAdapterPath))
  (logger : option RequestLogger) (template : option string).

Local Abbreviation fresh :=
  (init (ModelConfig:=ModelConfig) args role loras adapters logger template).

(** C1: N chat requests sent to a fresh replica share one build.
    Whatever the order in which the event loop resumes their handlers,
    at most one build call ([get_model_config] of line 67) is issued, and
    once the handlers have returned exactly one was issued, one serving
    object was constructed, and every chat call went to it. *)
Theorem one_build_for_concurrent_requests
    (requests : list (ChatCompletionRequest * RawRequest)) (schedule : list nat) :
  let final := run_llm schedule (fresh, chat_tasks requests) in
  requests <> [] ->
  build_calls (fst final) <= 1
  /\ constructed (fst final) <= 1
  /\ (forallb is_finished (snd final) = true ->
      build_calls (fst final) = 1
      /\ constructed (fst final) = 1
      /\ Forall (chat_call_on 0) (engine_calls (fst final))
      /\ exists f, openai_serving_chat (self (fst final)) = Some f /\ object_id f = 0).
Proof.
  intros final Hne.
  assert (Hnb : forallb not_begun
                  (chat_tasks (ModelConfig:=ModelConfig) (RequestLogger:=RequestLogger)
                     requests) = true).
  { clear. induction requests; simpl; auto. }
  pose proof (run_async_llm_single_build schedule
                (single_build_init args role loras adapters logger template _ Hnb))
    as (Ha & Hc & Hs).
  fold final in Ha, Hc, Hs.
  destruct (openai_serving_chat (self (fst final))) as [f|] eqn:O.
  - destruct Hs as (H1 & H2 & H3 & H4).
    split; [lia|]. split; [lia|]. intros _. repeat split; auto.
    exists f. now split.
  - destruct Hs as (H1 & H2 & H3).
    split; [lia|]. split; [lia|]. intro Hfin. exfalso.
    rewrite chats_begun_finished in H3; [| exact Hfin |].
    + unfold final in H3.
      rewrite <- (length_map handler_of), run_async_llm_handlers in H3.
      cbn [snd] in H3. rewrite length_map in H3.
      unfold chat_tasks in H3. rewrite length_map in H3.
      destruct requests; [congruence | discriminate].
    + unfold final. rewrite run_async_llm_handlers. apply chat_tasks_handlers.
Qed.

(** C9: once [openai_serving_chat] is set it stays as it is.  From a
    fresh replica and handlers of both endpoints that have not begun,
    under any schedule up to a state in which the field holds [f] and
    any schedule after it: [self] is unchanged, the field still holds
    [f], which is the object built on the first request (object 0), no
    further build call was issued and no further object constructed,
    every chat call went to [f], and every chat handler still waiting is
    served by [f]. *)
Theorem serving_chat_stays
    (ts : list (Task ModelConfig RawRequest RequestLogger))
    (before after : list nat) f :
  let ready := run_llm before (fresh, ts) in
  let later := run_llm after ready in
  forallb not_begun ts = true ->
  openai_serving_chat (self (fst ready)) = Some f ->
  self (fst later) = self (fst ready)
  /\ openai_serving_chat (self (fst later)) = Some f
  /\ object_id f = 0
  /\ build_calls (fst ready) = 1 /\ build_calls (fst later) = 1
  /\ constructed (fst ready) = 1 /\ constructed (fst later) = 1
  /\ Forall (chat_call_on 0) (engine_calls (fst later))
  /\ Forall (served_by f) (snd later).
Proof.
  intros ready later Hnb O.
  pose proof (run_async_llm_single_build before
                (single_build_init args role loras adapters logger template _ Hnb))
    as Hready.
  fold ready in Hready.
  pose proof (run_async_llm_single_build after Hready) as Hlater. fold later in Hlater.
  assert (Hself : self (fst later) = self (fst ready)).
  { unfold later. destruct (run_async_llm_refines after ready) as [s' ->].
    destruct Hready as (Ha & _).
    exact (@run_keeps_self _ _ _ get_model_config serving_chat_create s' ready f O Ha). }
  destruct Hready as (_ & _ & Hr). rewrite O in Hr. destruct Hr as (R1 & R2 & R3 & _).
  destruct Hlater as (_ & Hc & Hl). rewrite Hself, O in Hl.
  destruct Hl as (L1 & L2 & _ & L4).
  rewrite Hself. repeat split; auto.
Qed.

End Fresh.

End Engine.

(** C1 on two requests whose handlers are interleaved. *)
Lemma one_build_for_concurrent_requests_witness :
  let requests := [(Demo.request "demo-7b" false, tt); (Demo.request "demo-7b" true, tt)] in
  let final := DemoApp.loop_async_llm [0; 1; 0; 1] (Demo.fresh, chat_tasks requests) in
  requests <> []
  /\ forallb is_finished (snd final) = true
  /\ build_calls (fst final) = 1
  /\ engine_calls (fst final)
     = [GetModelConfig CreateChatCompletion;
        ChatCompletion 0 (Demo.request "demo-7b" false);
        ChatCompletion 0 (Demo.request "demo-7b" true)].
Proof.
  intros requests final.
  assert (Hne : requests <> []) by discriminate.
  assert (Hfin : forallb is_finished (snd final) = true) by reflexivity.
  split; [exact Hne|]. split; [exact Hfin|]. split; [|reflexivity].
  exact (proj1 (proj2 (proj2 (@one_build_for_concurrent_requests unit unit unit tt
                                Demo.serving_chat_create
                                {| model := "demo-7b" |} "assistant"
                                (Some [Demo.lora_A; Demo.lora_B]) None None None
                                requests [0; 1; 0; 1] Hne)) Hfin)).
Defined.

(** C9 on two chat requests and a [list_models] request: the field is
    set when the first handler begins and is the same at the end. *)
Lemma serving_chat_stays_witness :
  let ts := [Demo.chat_task (Demo.request "demo-7b" false); ListStart;
             Demo.chat_task (Demo.request "demo-7b" true)] in
  let f := serving_object tt Demo.fresh in
  let ready := DemoApp.loop_async_llm [0] (Demo.fresh, ts) in
  let later := DemoApp.loop_async_llm [1; 2; 0; 2; 1] ready in
  forallb not_begun ts = true
  /\ openai_serving_chat (self (fst ready)) = Some f
  /\ forallb is_finished (snd later) = true
  /\ openai_serving_chat (self (fst later)) = Some f
  /\ constructed (fst later) = 1.
Proof.
  intros ts f ready later.
  assert (Hnb : forallb not_begun ts = true) by reflexivity.
  assert (O : openai_serving_chat (self (fst ready)) = Some f) by reflexivity.
  split; [exact Hnb|]. split; [exact O|]. split; [reflexivity|].
  destruct (@serving_chat_stays unit unit unit tt Demo.serving_chat_create
              {| model := "demo-7b" |} "assistant" (Some [Demo.lora_A; Demo.lora_B])
              None None None ts [0] [1; 2; 0; 2; 1] f Hnb O)
    as (_ & H2 & _ & _ & _ & _ & H7 & _).
  split; [exact H2 | exact H7].
Defined.

End AsyncLLMFacts.
